(** * Crash test suite: telemetry classifiers, line reader and orchestrator

    A shallow embedding of [main/utils/crash_test_suite.py], the
    hardware-in-the-loop harness that drives an ESP32-S3 board over a serial
    port, and the properties of its line reader, its classifiers, its per-test
    state machine and its result aggregation.

    Conventions of the embedding.
    - Text is a [string]; a character stands for a code point below 256.  On
      those code points Python's [str.strip], [re.IGNORECASE], [\d] and [.]
      behave as written here.
    - Time is an integer number of microseconds.
    - The serial port and the wall clock are an environment of oracles
      ([Env]); the harness threads a [World] through its primitives.
    - Console output ([print]) is not modelled. *)

From Stdlib Require Import String Ascii List ZArith Bool Lia Arith.
Import ListNotations.

Local Open Scope string_scope.
Local Open Scope list_scope.

(** ** Text *)

Module Text.

Definition newline : ascii := "010"%char.

Definition code (c : ascii) : nat := nat_of_ascii c.

(** [str.isspace] on code points below 256. *)
Definition is_space (c : ascii) : bool :=
  let n := code c in
  (((9 <=? n) && (n <=? 13)) || ((28 <=? n) && (n <=? 32))
   || (n =? 133) || (n =? 160))%nat.

Definition is_digit (c : ascii) : bool :=
  let n := code c in ((48 <=? n) && (n <=? 57))%nat.

Definition lower (c : ascii) : ascii :=
  let n := code c in
  if ((65 <=? n) && (n <=? 90))%nat then ascii_of_nat (n + 32) else c.

(** [needle in hay] *)
Fixpoint contains (needle hay : string) : bool :=
  String.prefix needle hay
  || match hay with
     | EmptyString => false
     | String _ rest => contains needle rest
     end.

Fixpoint lstrip (s : string) : string :=
  match s with
  | EmptyString => EmptyString
  | String c rest => if is_space c then lstrip rest else s
  end.

Fixpoint rstrip (s : string) : string :=
  match s with
  | EmptyString => EmptyString
  | String c rest =>
      match rstrip rest with
      | EmptyString => if is_space c then EmptyString else String c EmptyString
      | kept => String c kept
      end
  end.

(** [s.strip()] *)
Definition strip (s : string) : string := rstrip (lstrip s).

(** Truthiness of a [str]. *)
Definition truthy (s : string) : bool :=
  match s with EmptyString => false | String _ _ => true end.

(** [s.split('\n', 1)] when ['\n' in s]; [None] when there is no newline. *)
Fixpoint split_newline (s : string) : option (string * string) :=
  match s with
  | EmptyString => None
  | String c rest =>
      if Ascii.eqb c newline then Some (EmptyString, rest)
      else match split_newline rest with
           | Some (line, tail) => Some (String c line, tail)
           | None => None
           end
  end.

(** The first [n] characters of [s]. *)
Fixpoint take (n : nat) (s : string) : string :=
  match n, s with
  | S m, String c rest => String c (take m rest)
  | _, _ => EmptyString
  end.

End Text.

(** ** Regular expressions

    The fragment of Python's [re] that the crash-log patterns use, matched by
    backtracking with greedy repetition, as [re] does. *)

Module Re.

Inductive cclass := Digit (* \d *) | Dot (* . *).

Inductive regex :=
| Chr (c : ascii)
| Eps
| Many1 (cl : cclass)        (* cl+ *)
| Seq (a b : regex)
| Alt (a b : regex)          (* a|b *)
| Group (a : regex).         (* (a) *)

(** A run of literal characters. *)
Fixpoint lit (s : string) : regex :=
  match s with
  | EmptyString => Eps
  | String c rest => Seq (Chr c) (lit rest)
  end.

Definition in_class (cl : cclass) (c : ascii) : bool :=
  match cl with
  | Digit => Text.is_digit c
  | Dot => negb (Ascii.eqb c Text.newline)
  end.

(** Under [re.IGNORECASE] a literal matches either case of a letter. *)
Definition same_nocase (p c : ascii) : bool :=
  Ascii.eqb (Text.lower p) (Text.lower c).

Definition cont := string -> list string -> option (list string).

(** Zero or more characters of a class, longest first. *)
Fixpoint many (cl : cclass) (s : string) (caps : list string) (k : cont)
  : option (list string) :=
  match s with
  | String c rest =>
      if in_class cl c then
        match many cl rest caps k with
        | Some r => Some r
        | None => k s caps
        end
      else k s caps
  | EmptyString => k s caps
  end.

(** [matches r s caps k]: match [r] at the head of [s], then continue with
    [k] on what is left; [caps] are the groups closed so far. *)
Fixpoint matches (r : regex) (s : string) (caps : list string) (k : cont)
  : option (list string) :=
  match r with
  | Chr p =>
      match s with
      | String c rest => if same_nocase p c then k rest caps else None
      | EmptyString => None
      end
  | Eps => k s caps
  | Many1 cl =>
      match s with
      | String c rest => if in_class cl c then many cl rest caps k else None
      | EmptyString => None
      end
  | Seq a b => matches a s caps (fun s' caps' => matches b s' caps' k)
  | Alt a b =>
      match matches a s caps k with
      | Some r => Some r
      | None => matches b s caps k
      end
  | Group a =>
      matches a s caps
        (fun s' caps' =>
           k s' (caps' ++ [Text.take (String.length s - String.length s') s]))
  end.

(** [re.search(r, s, re.IGNORECASE)]: the leftmost match; the result is
    [match.groups()]. *)
Fixpoint search (r : regex) (s : string) : option (list string) :=
  match matches r s [] (fun _ caps => Some caps) with
  | Some groups => Some groups
  | None =>
      match s with
      | EmptyString => None
      | String _ rest => search r rest
      end
  end.

End Re.

(** ** The environment: serial port and wall clock *)

(** What one poll of the port finds. *)
Inductive poll :=
| Fault (msg : string)     (* [in_waiting] raises *)
| Quiet                    (* [in_waiting] is 0 *)
| Garbled (msg : string)   (* bytes are waiting, but reading them raises *)
| Data (text : string).    (* bytes are waiting; [text] is what they decode
                              to, undecodable bytes dropped *)

Record Env := {
  lapse : nat -> Z;        (* the time the k-th primitive takes *)
  feed : nat -> poll;      (* what the k-th poll of the port finds *)
  wire : nat -> bool;      (* whether the k-th write and flush go through *)
  dial : bool;             (* whether [serial.Serial(...)] opens the port *)
  clear_in : bool;         (* whether [reset_input_buffer()] goes through *)
  clear_out : bool;        (* whether [reset_output_buffer()] goes through *)
  hang_up : option string  (* what [close()] raises, if it raises *)
}.

Record World := {
  now : Z;                 (* the wall clock *)
  step : nat;              (* primitives executed so far *)
  polls : nat;             (* polls of the port so far *)
  writes : nat;            (* writes attempted so far *)
  sent : list string;      (* text written to the port, oldest first *)
  is_open : bool
}.

Definition seconds (n : Z) : Z := (n * 1000000)%Z.
Definition millisecond : Z := 1000%Z.

(** ** Computations that may raise

    A computation over a state [S] returns, raises an [Exception] with its
    message, or exceeds the number of loop iterations the model follows. *)

Inductive run (S A : Type) : Type :=
| Done (a : A) (s : S)
| Raised (msg : string) (s : S)
| OutOfFuel.

Arguments Done {S A} a s.
Arguments Raised {S A} msg s.
Arguments OutOfFuel {S A}.

Definition M (S A : Type) : Type := S -> run S A.

Definition ret {S A} (a : A) : M S A := fun s => Done a s.

Definition bind {S A B} (m : M S A) (k : A -> M S B) : M S B :=
  fun s =>
    match m s with
    | Done a s' => k a s'
    | Raised msg s' => Raised msg s'
    | OutOfFuel => OutOfFuel
    end.

Declare Scope monad_scope.
Delimit Scope monad_scope with monad.
Notation "x <- m ;; k" := (bind m (fun x => k))
  (at level 61, m at next level, right associativity) : monad_scope.
Notation "m ;; k" := (bind m (fun _ => k))
  (at level 61, right associativity) : monad_scope.
Local Open Scope monad_scope.

(** [try: body  except Exception as e: handler(str(e))] *)
Definition try_except {S A} (body : M S A) (handler : string -> M S A)
  : M S A :=
  fun s =>
    match body s with
    | Raised msg s' => handler msg s'
    | r => r
    end.

(** [try: body  finally: final] *)
Definition try_finally {S A} (body : M S A) (final : M S unit) : M S A :=
  fun s =>
    match body s with
    | Done a s' => (final ;; ret a) s'
    | Raised msg s' => (final ;; (fun s'' => Raised msg s'')) s'
    | OutOfFuel => OutOfFuel
    end.

(** A local variable [L] next to the state [S]. *)
Definition lift {L S A} (m : M S A) : M (L * S) A :=
  fun ls =>
    match m (snd ls) with
    | Done a s' => Done a (fst ls, s')
    | Raised msg s' => Raised msg (fst ls, s')
    | OutOfFuel => OutOfFuel
    end.

Definition get {L S} : M (L * S) L := fun ls => Done (fst ls) ls.

Definition update {L S} (f : L -> L) : M (L * S) unit :=
  fun ls => Done tt (f (fst ls), snd ls).

(** Run [m] with the local variable starting at [l]; an exception that
    leaves [m] discards the variable. *)
Definition with_local {L S A} (l : L) (m : M (L * S) A) : M S (A * L) :=
  fun s =>
    match m (l, s) with
    | Done a ls => Done (a, fst ls) (snd ls)
    | Raised msg ls => Raised msg (snd ls)
    | OutOfFuel => OutOfFuel
    end.

Fixpoint for_each {S A} (xs : list A) (body : A -> M S unit) : M S unit :=
  match xs with
  | [] => ret tt
  | x :: rest => body x ;; for_each rest body
  end.

Fixpoint foldM {S A B} (body : B -> A -> M S B) (xs : list A) (acc : B)
  : M S B :=
  match xs with
  | [] => ret acc
  | x :: rest => acc' <- body acc x ;; foldM body rest acc'
  end.

(** ** Data *)

(** An entry of [self.crash_tests]. *)
Record TestConfig := {
  name : string;
  command : string;
  description : string;
  expect_reboot : bool;
  timeout : Z
}.

(** An entry of the list [parse_crash_logs] returns. *)
Record CrashLog := {
  type : string;
  line : string;
  data : option (list string);   (* [match.groups()], or [None] *)
  timestamp : Z
}.

(** The dict [run_crash_test] returns. *)
Record Result := {
  test_name : string;
  success : bool;
  crash_detected : bool;
  reboot_detected : bool;
  crash_logs : list CrashLog;
  duration : Z;
  error : option string
}.

Definition set_success (v : bool) (r : Result) : Result :=
  {| test_name := test_name r; success := v;
     crash_detected := crash_detected r; reboot_detected := reboot_detected r;
     crash_logs := crash_logs r; duration := duration r; error := error r |}.

Definition set_crash_detected (v : bool) (r : Result) : Result :=
  {| test_name := test_name r; success := success r;
     crash_detected := v; reboot_detected := reboot_detected r;
     crash_logs := crash_logs r; duration := duration r; error := error r |}.

Definition set_reboot_detected (v : bool) (r : Result) : Result :=
  {| test_name := test_name r; success := success r;
     crash_detected := crash_detected r; reboot_detected := v;
     crash_logs := crash_logs r; duration := duration r; error := error r |}.

Definition set_crash_logs (v : list CrashLog) (r : Result) : Result :=
  {| test_name := test_name r; success := success r;
     crash_detected := crash_detected r; reboot_detected := reboot_detected r;
     crash_logs := v; duration := duration r; error := error r |}.

Definition set_duration (v : Z) (r : Result) : Result :=
  {| test_name := test_name r; success := success r;
     crash_detected := crash_detected r; reboot_detected := reboot_detected r;
     crash_logs := crash_logs r; duration := v; error := error r |}.

Definition set_error (v : option string) (r : Result) : Result :=
  {| test_name := test_name r; success := success r;
     crash_detected := crash_detected r; reboot_detected := reboot_detected r;
     crash_logs := crash_logs r; duration := duration r; error := v |}.

(** [suite_results['summary']] *)
Record Summary := {
  total : nat;
  passed : nat;
  failed : nat;
  errors : nat
}.

(** The dict [suite_results]; [tests] keeps insertion order, as a dict does. *)
Record SuiteResults := {
  tests : list (string * Result);
  summary : Summary;
  start_time : Z;
  end_time : option Z
}.

(** What [run_test_suite] returns: [{'error': msg}] or [suite_results]. *)
Inductive SuiteOutcome :=
| SuiteError (msg : string)
| Suite (suite_results : SuiteResults).

(** [d[key] = value] on an insertion-ordered dict. *)
Fixpoint dict_set {V} (key : string) (value : V) (d : list (string * V))
  : list (string * V) :=
  match d with
  | [] => [(key, value)]
  | (k, v) :: rest =>
      if String.eqb k key then (k, value) :: rest
      else (k, v) :: dict_set key value rest
  end.

(** [d.get(key)] *)
Fixpoint dict_get {V} (key : string) (d : list (string * V)) : option V :=
  match d with
  | [] => None
  | (k, v) :: rest => if String.eqb k key then Some v else dict_get key rest
  end.

(** [key in d] *)
Definition dict_has {V} (key : string) (d : list (string * V)) : bool :=
  match dict_get key d with Some _ => true | None => false end.

(** [self.crash_tests] *)
Definition crash_tests : list (string * TestConfig) := [
  ("soft_test",
   {| name := "Soft Test Crash"; command := "TEST_CRASH_SOFT";
      description := "Tests logging without actual crash";
      expect_reboot := false; timeout := seconds 10 |});
  ("null_pointer",
   {| name := "Null Pointer Dereference"; command := "TEST_CRASH_NULL";
      description := "Triggers null pointer access violation";
      expect_reboot := true; timeout := seconds 15 |});
  ("stack_overflow",
   {| name := "Stack Overflow"; command := "TEST_CRASH_STACK";
      description := "Triggers stack overflow through recursion";
      expect_reboot := true; timeout := seconds 15 |});
  ("heap_corruption",
   {| name := "Heap Corruption"; command := "TEST_CRASH_HEAP";
      description := "Triggers heap corruption detection";
      expect_reboot := true; timeout := seconds 15 |});
  ("assert_fail",
   {| name := "Assertion Failure"; command := "TEST_CRASH_ASSERT";
      description := "Triggers assertion failure";
      expect_reboot := true; timeout := seconds 15 |});
  ("watchdog",
   {| name := "Watchdog Timeout"; command := "TEST_CRASH_WATCHDOG";
      description := "Triggers watchdog timeout";
      expect_reboot := true; timeout := seconds 30 |})
].

(** ** Classifier tables *)

Definition ready_indicators : list string := [
  "System Monitor - Fully Initialized";
  "Crash handler initialized";
  "Crash log manager initialized"
].

Definition reboot_indicators : list string := [
  "ESP-ROM:esp32s3";
  "rst:0x";
  "ESP-IDF v5.5 2nd stage bootloader";
  "Loaded app from partition"
].

Definition test_indicators : list string := [
  "Test crash logged";
  "TEST:";
  "Manual crash test"
].

(** [patterns] of [parse_crash_logs], in the order of the dict. *)
Definition patterns : list (string * Re.regex) := [
  ("init",
   Re.Seq (Re.lit "Crash log manager initialized - ")
     (Re.Seq (Re.Group (Re.Many1 Re.Digit)) (Re.lit " logs stored")));
  ("stored",
   Re.Alt (Re.lit "logs stored") (Re.lit "Storing crash log"));
  ("test_logged",
   Re.Seq (Re.lit "Test crash logged: ") (Re.Group (Re.Many1 Re.Dot)));
  ("recovery",
   Re.Seq (Re.lit "System recovered from crash: ") (Re.Group (Re.Many1 Re.Dot)))
].

(** Whether some indicator of a table occurs in some line. *)
Definition any_indicator (indicators lines : list string) : bool :=
  existsb (fun line =>
             existsb (fun indicator => Text.contains indicator line) indicators)
          lines.

(** The list [found_indicators] of [wait_for_system_ready]: one entry for
    every line and every indicator that occurs in it. *)
Definition found_indicators (lines : list string) : list string :=
  flat_map (fun line =>
              filter (fun indicator => Text.contains indicator line)
                     ready_indicators)
           lines.

(** [detect_reboot] *)
Definition detect_reboot (lines : list string) : bool :=
  any_indicator reboot_indicators lines.

(** The inner loop of the line reader: while the buffer holds a newline, split
    off the text before it, strip it and keep it when it is not empty.  Each
    round removes at least the newline, so [String.length buffer] rounds are
    enough. *)
Fixpoint drain (rounds : nat) (buffer : string) (lines : list string)
  : list string * string :=
  match rounds with
  | O => (lines, buffer)
  | S rounds' =>
      match Text.split_newline buffer with
      | Some (line, buffer') =>
          let line := Text.strip line in
          drain rounds' buffer'
                (if Text.truthy line then lines ++ [line] else lines)
      | None => (lines, buffer)
      end
  end.

(** ** The harness *)

Section Harness.

Variable e : Env.

(** The number of rounds of the polling loop the model follows. *)
Variable fuel : nat.

(** *** Primitives *)

(** Every primitive takes the time the environment gives it. *)
Definition tick (w : World) : World :=
  {| now := now w + lapse e (step w); step := S (step w);
     polls := polls w; writes := writes w; sent := sent w;
     is_open := is_open w |}.

Definition next_poll (w : World) : World :=
  {| now := now w; step := step w; polls := S (polls w);
     writes := writes w; sent := sent w; is_open := is_open w |}.

(** [time.time()] *)
Definition time_time : M World Z := fun w => Done (now w) (tick w).

(** [datetime.now()] *)
Definition datetime_now : M World Z := fun w => Done (now w) (tick w).

(** [time.sleep(d)] *)
Definition sleep (d : Z) : M World unit :=
  fun w =>
    Done tt (tick {| now := now w + d; step := step w; polls := polls w;
                     writes := writes w; sent := sent w;
                     is_open := is_open w |}).

(** [self.serial_conn.in_waiting]; the harness only tests it against 0, so
    a positive count is given as 1. *)
Definition in_waiting : M World nat :=
  fun w =>
    match feed e (polls w) with
    | Fault msg => Raised msg (tick (next_poll w))
    | Quiet => Done 0 (tick (next_poll w))
    | Garbled _ | Data _ => Done 1 (tick w)
    end.

(** [self.serial_conn.read(self.serial_conn.in_waiting)
      .decode('utf-8', errors='ignore')] *)
Definition read_decoded : M World string :=
  fun w =>
    match feed e (polls w) with
    | Data text => Done text (tick (next_poll w))
    | Garbled msg => Raised msg (tick (next_poll w))
    | Fault _ | Quiet => Done EmptyString (tick w)
    end.

(** [self.serial_conn.write(text.encode('utf-8'))] and [flush()] *)
Definition serial_write (text : string) : M World unit :=
  fun w =>
    let w' := {| now := now w; step := step w; polls := polls w;
                 writes := S (writes w);
                 sent := if wire e (writes w) then sent w ++ [text]
                         else sent w;
                 is_open := is_open w |} in
    if wire e (writes w) then Done tt (tick w')
    else Raised "write failed" (tick w').

Definition set_open (v : bool) : M World unit :=
  fun w =>
    Done tt (tick {| now := now w; step := step w; polls := polls w;
                     writes := writes w; sent := sent w; is_open := v |}).

(** *** [connect], [disconnect], [send_command] *)

(** [serial.Serial(port=..., baudrate=..., timeout=1, write_timeout=1)];
    the connection object is kept only when the call returns. *)
Definition serial_open : M World unit :=
  fun w =>
    if dial e then set_open true w
    else Raised "could not open port" (tick w).

(** [reset_input_buffer()] and [reset_output_buffer()] *)
Definition reset_buffer (ok : bool) : M World unit :=
  fun w => if ok then Done tt (tick w) else Raised "reset failed" (tick w).

(** [self.serial_conn.close()]; a close that raises leaves the port as it
    was. *)
Definition serial_close : M World unit :=
  fun w =>
    match hang_up e with
    | None => set_open false w
    | Some msg => Raised msg (tick w)
    end.

Definition connect : M World bool :=
  try_except
    (serial_open ;;
     reset_buffer (clear_in e) ;;
     reset_buffer (clear_out e) ;;
     ret true)
    (fun _ => ret false).

Definition disconnect : M World unit :=
  fun w => if is_open w then serial_close w else Done tt w.

Definition send_command (command : string) : M World bool :=
  try_except
    (serial_write (command ++ String Text.newline EmptyString)%string ;;
     ret true)
    (fun _ => ret false).

(** *** [read_serial_with_timeout] *)

(** One round of the polling loop: the body of [while]. *)
Definition poll_once (lines : list string) (buffer : string)
  : M World (list string * string) :=
  n <- in_waiting ;;
  st <- (if (0 <? n)%nat then
           try_except
             (data <- read_decoded ;;
              let buffer := (buffer ++ data)%string in
              ret (drain (String.length buffer) buffer lines))
             (fun _ => ret (lines, buffer))
         else ret (lines, buffer)) ;;
  sleep millisecond ;;
  ret st.

Fixpoint read_loop (rounds : nat) (timeout start_time : Z)
         (lines : list string) (buffer : string) : M World (list string) :=
  match rounds with
  | O => fun _ => OutOfFuel
  | S rounds' =>
      t <- time_time ;;
      if (t - start_time <? timeout)%Z then
        st <- poll_once lines buffer ;;
        read_loop rounds' timeout start_time (fst st) (snd st)
      else ret lines
  end.

Definition read_serial_with_timeout (timeout : Z) : M World (list string) :=
  start_time <- time_time ;;
  read_loop fuel timeout start_time [] EmptyString.

(** *** The classifiers *)

Definition wait_for_system_ready (timeout : Z) : M World bool :=
  lines <- read_serial_with_timeout timeout ;;
  ret (2 <=? List.length (found_indicators lines))%nat.

(** The body of the inner loop of [parse_crash_logs]: one pattern on one
    line. *)
Definition log_match (line : string) (crash_logs : list CrashLog)
           (entry : string * Re.regex) : M World (list CrashLog) :=
  let (pattern_name, pattern) := entry in
  match Re.search pattern line with
  | Some groups =>
      stamp <- datetime_now ;;
      ret (crash_logs ++
           [ {| type := pattern_name; line := line;
                data := match groups with
                        | [] => None
                        | _ => Some groups
                        end;
                timestamp := stamp |} ])
  | None => ret crash_logs
  end.

Definition parse_crash_logs (lines : list string) : M World (list CrashLog) :=
  foldM (fun crash_logs line => foldM (log_match line) patterns crash_logs)
        lines [].

Definition trigger_soft_crash_test : M World bool :=
  lines <- read_serial_with_timeout (seconds 5) ;;
  ret (any_indicator test_indicators lines).

(** *** [run_crash_test] *)

(** The dict returned for an unknown test has only the keys [success] and
    [error]; the other fields are given the values a result starts with. *)
Definition unknown_result (test_name : string) : Result :=
  {| test_name := EmptyString; success := false; crash_detected := false;
     reboot_detected := false; crash_logs := []; duration := 0%Z;
     error := Some ("Unknown test: " ++ test_name)%string |}.

(** The dict [result] as [run_crash_test] creates it. *)
Definition new_result (test_name : string) : Result :=
  {| test_name := test_name; success := false; crash_detected := false;
     reboot_detected := false; crash_logs := []; duration := 0%Z;
     error := None |}.

(** The body of the [try] block, run on the local [result]; it returns
    [true] where the source leaves the function from inside the block. *)
Definition test_body (test_name : string) (test_config : TestConfig)
           (start_time : Z) : M (Result * World) bool :=
  if String.eqb test_name "soft_test" then
    found <- lift trigger_soft_crash_test ;;
    update (set_success found) ;;
    t <- lift time_time ;;
    update (set_duration (t - start_time)) ;;
    ret true
  else
    sent_ok <- lift (send_command (command test_config)) ;;
    if negb sent_ok then
      update (set_error (Some "Failed to send command")) ;;
      ret true
    else
      lines <- lift (read_serial_with_timeout (timeout test_config)) ;;
      update (set_reboot_detected (detect_reboot lines)) ;;
      logs <- lift (parse_crash_logs lines) ;;
      update (set_crash_logs logs) ;;
      update (set_crash_detected (0 <? List.length logs)%nat) ;;
      update (fun result =>
                set_success
                  (if expect_reboot test_config
                   then reboot_detected result && crash_detected result
                   else crash_detected result
                        && negb (reboot_detected result))
                  result) ;;
      result <- get ;;
      if reboot_detected result then
        ready <- lift (wait_for_system_ready (seconds 30)) ;;
        if ready then ret false
        else update (set_success false) ;; ret false
      else ret false.

Definition run_crash_test (test_name : string) : M World Result :=
  match dict_get test_name crash_tests with
  | None => ret (unknown_result test_name)
  | Some test_config =>
      let result := new_result test_name in
      start_time <- time_time ;;
      out <- with_local result
               (try_except
                  (test_body test_name test_config start_time)
                  (fun msg => update (set_error (Some msg)) ;; ret false)) ;;
      let (returned, result) := out : bool * Result in
      if returned then ret result
      else
        t <- time_time ;;
        ret (set_duration (t - start_time) result)
  end.

(** *** [run_test_suite] *)

(** Truthiness of [result.get('error')]. *)
Definition has_error (result : Result) : bool :=
  match error result with
  | Some msg => Text.truthy msg
  | None => false
  end.

Definition set_tests (v : list (string * Result)) (s : SuiteResults)
  : SuiteResults :=
  {| tests := v; summary := summary s; start_time := start_time s;
     end_time := end_time s |}.

Definition set_summary (v : Summary) (s : SuiteResults) : SuiteResults :=
  {| tests := tests s; summary := v; start_time := start_time s;
     end_time := end_time s |}.

Definition set_end_time (v : option Z) (s : SuiteResults) : SuiteResults :=
  {| tests := tests s; summary := summary s; start_time := start_time s;
     end_time := v |}.

Definition add_total (m : Summary) : Summary :=
  {| total := total m + 1; passed := passed m; failed := failed m;
     errors := errors m |}.

Definition add_passed (m : Summary) : Summary :=
  {| total := total m; passed := passed m + 1; failed := failed m;
     errors := errors m |}.

Definition add_failed (m : Summary) : Summary :=
  {| total := total m; passed := passed m; failed := failed m + 1;
     errors := errors m |}.

Definition add_errors (m : Summary) : Summary :=
  {| total := total m; passed := passed m; failed := failed m;
     errors := errors m + 1 |}.

(** One round of the [for] loop, on the local [suite_results]. *)
Definition suite_step (tests_to_run : list string) (test_name : string)
  : M (SuiteResults * World) unit :=
  if dict_has test_name crash_tests then
    result <- lift (run_crash_test test_name) ;;
    update (fun s => set_tests (dict_set test_name result (tests s)) s) ;;
    update (fun s => set_summary (add_total (summary s)) s) ;;
    update (fun s =>
              set_summary
                (if has_error result then add_errors (summary s)
                 else if success result then add_passed (summary s)
                 else add_failed (summary s))
                s) ;;
    if negb (String.eqb test_name (last tests_to_run EmptyString)) then
      lift (sleep (seconds 5))
    else ret tt
  else ret tt.

Definition run_test_suite (tests_to_run : list string)
  : M World SuiteOutcome :=
  connected <- connect ;;
  if negb connected then ret (SuiteError "Connection failed")
  else
    ready <- wait_for_system_ready (seconds 60) ;;
    if negb ready then
      disconnect ;;
      ret (SuiteError "System not ready")
    else
      started <- datetime_now ;;
      let suite_results :=
        {| tests := [];
           summary := {| total := 0; passed := 0; failed := 0; errors := 0 |};
           start_time := started; end_time := None |} in
      out <- with_local suite_results
               (try_finally
                  (for_each tests_to_run (suite_step tests_to_run))
                  (ended <- lift datetime_now ;;
                   update (set_end_time (Some ended)) ;;
                   lift disconnect)) ;;
      ret (Suite (snd out)).

End Harness.

(** ** Notions the statements use *)

(** The number of lines in which an indicator occurs. *)
Definition occurrences (indicator : string) (lines : list string) : nat :=
  List.length (filter (Text.contains indicator) lines).

(** The readiness indicators that occur in at least one line, each once:
    the distinct indicators the specification counts. *)
Definition distinct_found (lines : list string) : list string :=
  filter (fun indicator => existsb (Text.contains indicator) lines)
         ready_indicators.

(** The newline-terminated segments of a text, and what follows the last
    newline. *)
Fixpoint cut (s : string) : list string * string :=
  match s with
  | EmptyString => ([], EmptyString)
  | String c rest =>
      let (segments, tail) := cut rest in
      if Ascii.eqb c Text.newline then (EmptyString :: segments, tail)
      else match segments with
           | [] => ([], String c tail)
           | first :: others => (String c first :: others, tail)
           end
  end.

(** The lines a text gives: its newline-terminated segments, stripped, the
    empty ones left out. *)
Definition complete_lines (s : string) : list string :=
  filter Text.truthy (map Text.strip (fst (cut s))).

(** The text after the last newline. *)
Definition partial_line (s : string) : string := snd (cut s).

Definition text_of (p : poll) : string :=
  match p with
  | Data text => text
  | _ => EmptyString
  end.

(** The text the port delivers in [count] polls starting with poll [from]. *)
Fixpoint received (e : Env) (from count : nat) : string :=
  match count with
  | O => EmptyString
  | S count' => (text_of (feed e from) ++ received e (S from) count')%string
  end.

(** Rounds of the polling loop that are enough for a timeout: every round
    sleeps a millisecond. *)
Definition rounds_needed (timeout : Z) : nat :=
  S (Z.to_nat (timeout / millisecond + 1)).

(** An entry of the crash log without its timestamp. *)
Definition untimed (log : CrashLog) : string * string * option (list string) :=
  (type log, line log, data log).

(** The captured groups of an entry, as the specification speaks of them:
    the tuple in [data], and no group when [data] is [None]. *)
Definition captured_groups (log : CrashLog) : list string :=
  match data log with
  | Some groups => groups
  | None => []
  end.

(** [match.groups() if match.groups() else None] *)
Definition groups_or_none (groups : list string) : option (list string) :=
  match groups with
  | [] => None
  | _ => Some groups
  end.

(** The patterns of a table that match a line, in order, with what they
    capture. *)
Definition hits_in (table : list (string * Re.regex)) (line : string)
  : list (string * string * option (list string)) :=
  flat_map (fun entry : string * Re.regex =>
              match Re.search (snd entry) line with
              | Some groups => [(fst entry, line, groups_or_none groups)]
              | None => []
              end)
           table.

Definition hits (line : string)
  : list (string * string * option (list string)) :=
  hits_in patterns line.

(** Whether a pattern matches somewhere in a line. *)
Definition matched (pattern : Re.regex) (line : string) : bool :=
  match Re.search pattern line with
  | Some _ => true
  | None => false
  end.

Fixpoint lowercase (s : string) : string :=
  match s with
  | EmptyString => EmptyString
  | String c rest => String (Text.lower c) (lowercase rest)
  end.

Fixpoint group_free (r : Re.regex) : bool :=
  match r with
  | Re.Chr _ | Re.Eps | Re.Many1 _ => true
  | Re.Seq a b | Re.Alt a b => group_free a && group_free b
  | Re.Group _ => false
  end.

Definition known (test_name : string) : bool := dict_has test_name crash_tests.

(** ** Scripted environments

    A port that delivers a fixed script of polls and is quiet afterwards;
    every primitive takes [pace]. *)

Definition script (events : list poll) : nat -> poll :=
  fun k => nth k events Quiet.

Definition bench (pace : Z) (events : list poll) : Env :=
  {| lapse := fun _ => pace; feed := script events;
     wire := fun _ => true; dial := true;
     clear_in := true; clear_out := true; hang_up := None |}.

Definition boot : World :=
  {| now := 0; step := 0; polls := 0; writes := 0; sent := [];
     is_open := false |}.

Definition nl : string := String Text.newline EmptyString.

(** The port as the harness left it: nothing written, nothing opened or
    closed. *)
Definition same_link (w w' : World) : Prop :=
  sent w' = sent w /\ writes w' = writes w /\ is_open w' = is_open w.

(** The clock is never set back: no primitive takes negative time. *)
Definition steady (e : Env) : Prop := forall k, (0 <= lapse e k)%Z.

(** The state of the reader after the polls from [from] on: the lines are
    the complete lines of the text received, the buffer is its partial
    line. *)
Definition tracks (e : Env) (from : nat) (lines : list string)
           (buffer : string) (w : World) : Prop :=
  from <= polls w
  /\ lines = complete_lines (received e from (polls w - from))
  /\ buffer = partial_line (received e from (polls w - from)).

(** Two continuations that fail on the same texts, letter case apart. *)
Definition alike (k1 k2 : Re.cont) : Prop :=
  forall t1 t2 caps1 caps2,
    lowercase t1 = lowercase t2 -> (k1 t1 caps1 = None <-> k2 t2 caps2 = None).

(** The verdict of the policy keyed on [expect_reboot]. *)
Definition expected (test_config : TestConfig) (reboot crash : bool) : bool :=
  if expect_reboot test_config then reboot && crash else crash && negb reboot.

(** The result of a test once its observation window is classified. *)
Definition analysed (test_name : string) (test_config : TestConfig)
           (lines : list string) (logs : list CrashLog) : Result :=
  {| test_name := test_name;
     success := expected test_config (detect_reboot lines)
                         (0 <? List.length logs)%nat;
     crash_detected := (0 <? List.length logs)%nat;
     reboot_detected := detect_reboot lines;
     crash_logs := logs; duration := 0%Z; error := None |}.

(** The ways a test other than the soft test comes to its result: the
    command cannot be sent; the observation raises; the window shows no
    reboot; the window shows a reboot and the recovery wait returns; the
    window shows a reboot and the recovery wait raises. *)
Inductive test_run (e : Env) (fuel : nat) (test_name : string)
          (cfg : TestConfig) (w : World) : Result -> World -> Prop :=
| SendFailed w1 :
    send_command e (command cfg) (tick e w) = Done false w1 ->
    test_run e fuel test_name cfg w
             (set_error (Some "Failed to send command") (new_result test_name))
             w1
| ObservationRaised w1 msg w2 :
    send_command e (command cfg) (tick e w) = Done true w1 ->
    read_serial_with_timeout e fuel (timeout cfg) w1 = Raised msg w2 ->
    test_run e fuel test_name cfg w
             (set_duration (now w2 - now w)
                           (set_error (Some msg) (new_result test_name)))
             (tick e w2)
| NoReboot w1 lines w2 logs w3 :
    send_command e (command cfg) (tick e w) = Done true w1 ->
    read_serial_with_timeout e fuel (timeout cfg) w1 = Done lines w2 ->
    parse_crash_logs e lines w2 = Done logs w3 ->
    detect_reboot lines = false ->
    test_run e fuel test_name cfg w
             (set_duration (now w3 - now w)
                           (analysed test_name cfg lines logs))
             (tick e w3)
| Recovery w1 lines w2 logs w3 ready w4 :
    send_command e (command cfg) (tick e w) = Done true w1 ->
    read_serial_with_timeout e fuel (timeout cfg) w1 = Done lines w2 ->
    parse_crash_logs e lines w2 = Done logs w3 ->
    detect_reboot lines = true ->
    wait_for_system_ready e fuel (seconds 30) w3 = Done ready w4 ->
    test_run e fuel test_name cfg w
             (set_duration (now w4 - now w)
                           (if ready then analysed test_name cfg lines logs
                            else set_success false
                                   (analysed test_name cfg lines logs)))
             (tick e w4)
| RecoveryRaised w1 lines w2 logs w3 msg w4 :
    send_command e (command cfg) (tick e w) = Done true w1 ->
    read_serial_with_timeout e fuel (timeout cfg) w1 = Done lines w2 ->
    parse_crash_logs e lines w2 = Done logs w3 ->
    detect_reboot lines = true ->
    wait_for_system_ready e fuel (seconds 30) w3 = Raised msg w4 ->
    test_run e fuel test_name cfg w
             (set_duration (now w4 - now w)
                           (set_error (Some msg)
                                      (analysed test_name cfg lines logs)))
             (tick e w4).

(** How the aggregator counts a result. *)
Definition tally (result : Result) (m : Summary) : Summary :=
  if has_error result then add_errors m
  else if success result then add_passed m
  else add_failed m.

Definition balanced (m : Summary) : Prop :=
  passed m + failed m + errors m = total m.

(** Two accounts of the same call agree. *)
Ltac same_run :=
  repeat match goal with
         | H1 : ?x = Done _ _, H2 : ?x = Done _ _ |- _ =>
             rewrite H1 in H2; inversion H2; subst; clear H2
         | H1 : ?x = Done _ _, H2 : ?x = Raised _ _ |- _ =>
             rewrite H1 in H2; discriminate H2
         | H1 : ?x = Raised _ _, H2 : ?x = Done _ _ |- _ =>
             rewrite H1 in H2; discriminate H2
         end.

(** ** The command line

    The part of [main] that turns the [--test] argument into the list of
    tests to run; [None] is [sys.exit(1)] after the message about an unknown
    test. *)
Definition select_tests (test : string) : option (list string) :=
  if String.eqb test "all" then Some (map fst crash_tests)
  else if dict_has test crash_tests then Some [test]
  else None.

(** The tests that send a trigger command: the ones of the catalog other
    than the soft test. *)
Definition sends_command (test_name : string) : bool :=
  known test_name && negb (String.eqb test_name "soft_test").

(** The line [send_command] writes for a test. *)
Definition trigger_line (test_name : string) : string :=
  match dict_get test_name crash_tests with
  | Some test_config => (command test_config ++ nl)%string
  | None => EmptyString
  end.

(** Every write to the port goes through. *)
Definition wired (e : Env) : Prop := forall k, wire e k = true.

(** [suite_results] as [run_test_suite] creates it. *)
Definition new_suite (started : Z) : SuiteResults :=
  {| tests := [];
     summary := {| total := 0; passed := 0; failed := 0; errors := 0 |};
     start_time := started; end_time := None |}.

(** A character of a text. *)
Fixpoint occurs (c : ascii) (s : string) : bool :=
  match s with
  | EmptyString => false
  | String x rest => Ascii.eqb x c || occurs c rest
  end.

(** Every character of a text is in a class. *)
Fixpoint all_in (cl : Re.cclass) (s : string) : bool :=
  match s with
  | EmptyString => true
  | String x rest => Re.in_class cl x && all_in cl rest
  end.

(** The last character of a text. *)
Fixpoint last_char (s : string) : option ascii :=
  match s with
  | EmptyString => None
  | String x EmptyString => Some x
  | String _ rest => last_char rest
  end.

(** The bench with a port on which every write fails. *)
Definition dead_wire (pace : Z) (events : list poll) : Env :=
  {| lapse := fun _ => pace; feed := script events;
     wire := fun _ => false; dial := true;
     clear_in := true; clear_out := true; hang_up := None |}.

(** A port that opens, but whose output buffer cannot be reset. *)
Definition clogged_port (pace : Z) : Env :=
  {| lapse := fun _ => pace; feed := script [];
     wire := fun _ => true; dial := true;
     clear_in := true; clear_out := false; hang_up := None |}.

(** The bench with a port that cannot be closed. *)
Definition stuck_port (pace : Z) (events : list poll) : Env :=
  {| lapse := fun _ => pace; feed := script events;
     wire := fun _ => true; dial := true;
     clear_in := true; clear_out := true;
     hang_up := Some "close failed" |}.

(** * Properties *)

(** ** Text *)

Lemma append_empty_r (s : string) : (s ++ EmptyString)%string = s.
Proof. induction s as [|c s IH]; simpl; [reflexivity | now rewrite IH]. Qed.

Lemma append_assoc (a b c : string) :
  ((a ++ b) ++ c)%string = (a ++ (b ++ c))%string.
Proof. induction a as [|x a IH]; simpl; [reflexivity | now rewrite IH]. Qed.

Lemma split_newline_none (s : string) :
  Text.split_newline s = None -> cut s = ([], s).
Proof.
  induction s as [|c s IH]; simpl; [reflexivity|].
  destruct (Ascii.eqb c Text.newline); [discriminate|].
  destruct (Text.split_newline s) as [[l t]|]; [discriminate|].
  intros _. now rewrite IH.
Qed.

Lemma split_newline_some (s line rest : string) :
  Text.split_newline s = Some (line, rest) ->
  cut s = (line :: fst (cut rest), snd (cut rest))
  /\ String.length rest < String.length s.
Proof.
  revert line; induction s as [|c s IH]; simpl; intros line; [discriminate|].
  destruct (Ascii.eqb c Text.newline).
  - intros [= <- <-]. destruct (cut s); simpl. split; [reflexivity | lia].
  - destruct (Text.split_newline s) as [[l t]|]; [|discriminate].
    intros [= <- <-]. destruct (IH l eq_refl) as [-> Hlen].
    split; [reflexivity | lia].
Qed.

(** The inner loop of the reader emits the complete lines of the buffer and
    leaves its partial line. *)
Lemma drain_cut (rounds : nat) :
  forall buffer lines,
    String.length buffer <= rounds ->
    drain rounds buffer lines
    = (lines ++ complete_lines buffer, partial_line buffer).
Proof.
  unfold complete_lines, partial_line.
  induction rounds as [|n IH]; intros buffer lines Hlen.
  - destruct buffer; [|simpl in Hlen; lia]. simpl. now rewrite app_nil_r.
  - simpl. destruct (Text.split_newline buffer) as [[l rest]|] eqn:Hs.
    + destruct (split_newline_some _ _ _ Hs) as [-> Hlt]. simpl.
      rewrite IH by lia.
      destruct (Text.truthy (Text.strip l)); simpl;
        [now rewrite <- app_assoc | reflexivity].
    + rewrite (split_newline_none _ Hs). simpl. now rewrite app_nil_r.
Qed.

Lemma cut_append (a b : string) :
  cut (a ++ b)
  = (fst (cut a) ++ fst (cut (snd (cut a) ++ b)),
     snd (cut (snd (cut a) ++ b))).
Proof.
  induction a as [|c a IH]; simpl.
  - now destruct (cut b).
  - rewrite IH. destruct (cut a) as [sa ta]; simpl.
    destruct (Ascii.eqb c Text.newline) eqn:Hc; simpl.
    + reflexivity.
    + destruct sa as [|x sa]; simpl; [|reflexivity].
      rewrite Hc. destruct (cut (ta ++ b)) as [sb tb]; simpl.
      now destruct sb.
Qed.

Lemma complete_lines_append (a b : string) :
  complete_lines (a ++ b)
  = complete_lines a ++ complete_lines (partial_line a ++ b).
Proof.
  unfold complete_lines, partial_line. rewrite cut_append. simpl.
  now rewrite map_app, filter_app.
Qed.

Lemma partial_line_append (a b : string) :
  partial_line (a ++ b) = partial_line (partial_line a ++ b).
Proof. unfold partial_line. now rewrite cut_append. Qed.

Lemma received_snoc (e : Env) (count : nat) :
  forall from,
    received e from (S count)
    = (received e from count ++ text_of (feed e (from + count)))%string.
Proof.
  induction count as [|n IH]; intros from.
  - simpl. now rewrite append_empty_r, Nat.add_0_r.
  - change (received e from (S (S n)))
      with (text_of (feed e from) ++ received e (S from) (S n))%string.
    rewrite IH. simpl. rewrite append_assoc.
    now replace (S (from + n)) with (from + S n) by lia.
Qed.

(** The partial line holds no newline. *)
Lemma cut_partial_line (s : string) :
  cut (partial_line s) = ([], partial_line s).
Proof.
  unfold partial_line. induction s as [|c s IH]; simpl; [reflexivity|].
  destruct (cut s) as [segs tail]; simpl in *.
  destruct (Ascii.eqb c Text.newline) eqn:Hc; simpl; [exact IH|].
  destruct segs as [|x segs]; simpl; [|exact IH].
  now rewrite Hc, IH.
Qed.

(** ** The line reader *)

Section Reader.

Variable e : Env.

Lemma poll_once_done lines buffer w st w' :
  poll_once e lines buffer w = Done st w' ->
  st = match feed e (polls w) with
       | Data text =>
           drain (String.length (buffer ++ text)) (buffer ++ text)%string lines
       | _ => (lines, buffer)
       end
  /\ (forall msg, feed e (polls w) <> Fault msg)
  /\ polls w' = S (polls w)
  /\ same_link w w'
  /\ (steady e -> (now w + millisecond <= now w')%Z).
Proof.
  unfold poll_once, bind, in_waiting, read_decoded, try_except, sleep, ret,
    same_link, steady.
  destruct (feed e (polls w)) eqn:Hf; simpl; try rewrite Hf; simpl;
    try discriminate; intros [= <- <-]; simpl;
    (repeat split; try congruence; try reflexivity);
    intros Hs;
    pose proof (Hs (step w)); pose proof (Hs (S (step w)));
    pose proof (Hs (S (S (step w)))); lia.
Qed.

Lemma poll_once_raised lines buffer w msg w' :
  poll_once e lines buffer w = Raised msg w' ->
  feed e (polls w) = Fault msg /\ same_link w w'.
Proof.
  unfold poll_once, bind, in_waiting, read_decoded, try_except, sleep, ret,
    same_link.
  destruct (feed e (polls w)) eqn:Hf; simpl; try rewrite Hf; simpl;
    try discriminate; intros [= <- <-]; simpl; auto.
Qed.

Lemma poll_once_fuel lines buffer w : poll_once e lines buffer w <> OutOfFuel.
Proof.
  unfold poll_once, bind, in_waiting, read_decoded, try_except, sleep, ret.
  destruct (feed e (polls w)) eqn:Hf; simpl; try rewrite Hf; simpl;
    discriminate.
Qed.

(** An invariant of the rounds holds when the loop returns, and the loop
    returns on a clock reading past the timeout. *)
Lemma read_loop_rule (I : list string -> string -> World -> Prop)
      (timeout start : Z) :
  (forall lines buffer w, I lines buffer w -> I lines buffer (tick e w)) ->
  (forall lines buffer w st w',
      I lines buffer w -> poll_once e lines buffer w = Done st w' ->
      I (fst st) (snd st) w') ->
  forall rounds lines buffer w out w',
    I lines buffer w ->
    read_loop e rounds timeout start lines buffer w = Done out w' ->
    exists buffer' wg,
      I out buffer' wg /\ w' = tick e wg /\ (timeout <= now wg - start)%Z.
Proof.
  intros Htick Hpoll.
  induction rounds as [|n IH]; intros lines buffer w out w' Hi; simpl;
    [discriminate|].
  unfold bind at 1, time_time.
  destruct (now w - start <? timeout)%Z eqn:Hguard.
  - unfold bind.
    destruct (poll_once e lines buffer (tick e w)) as [st w1| |] eqn:Hp;
      try discriminate.
    intros Hrun. eapply IH; [|exact Hrun].
    eapply Hpoll; [|exact Hp]. now apply Htick.
  - unfold ret. intros [= <- <-]. exists buffer, w.
    apply Z.ltb_ge in Hguard. auto.
Qed.

(** The same for a loop that an exception leaves: it comes out of a poll
    made in a state that satisfies the invariant. *)
Lemma read_loop_raise_rule (I : list string -> string -> World -> Prop)
      (timeout start : Z) :
  (forall lines buffer w, I lines buffer w -> I lines buffer (tick e w)) ->
  (forall lines buffer w st w',
      I lines buffer w -> poll_once e lines buffer w = Done st w' ->
      I (fst st) (snd st) w') ->
  forall rounds lines buffer w msg w',
    I lines buffer w ->
    read_loop e rounds timeout start lines buffer w = Raised msg w' ->
    exists lines1 buffer1 w1,
      I lines1 buffer1 w1 /\ poll_once e lines1 buffer1 w1 = Raised msg w'.
Proof.
  intros Htick Hpoll.
  induction rounds as [|n IH]; intros lines buffer w msg w' Hi; simpl;
    [discriminate|].
  unfold bind at 1, time_time.
  destruct (now w - start <? timeout)%Z eqn:Hguard; [|discriminate].
  unfold bind.
  destruct (poll_once e lines buffer (tick e w)) as [st w1|m w1|] eqn:Hp;
    try discriminate.
  - intros Hrun. eapply IH; [|exact Hrun].
    eapply Hpoll; [|exact Hp]. now apply Htick.
  - intros [= <- <-]. exists lines, buffer, (tick e w). auto.
Qed.

Lemma same_link_trans w1 w2 w3 :
  same_link w1 w2 -> same_link w2 w3 -> same_link w1 w3.
Proof. unfold same_link; intuition congruence. Qed.

Lemma same_link_tick w : same_link w (tick e w).
Proof. unfold same_link; simpl; auto. Qed.

(** Reading writes nothing to the port. *)
Lemma read_serial_same_link timeout fuel w :
  match read_serial_with_timeout e fuel timeout w with
  | Done _ w' | Raised _ w' => same_link w w' /\ polls w <= polls w'
  | OutOfFuel => True
  end.
Proof.
  set (Inv := fun (_ : list string) (_ : string) w1 =>
              same_link w w1 /\ polls w <= polls w1).
  assert (Htick : forall lines buffer w1,
             Inv lines buffer w1 -> Inv lines buffer (tick e w1)).
  { intros l b w1 [Hl Hp]. split; [|exact Hp].
    eapply same_link_trans; [exact Hl | apply same_link_tick]. }
  assert (Hpoll : forall lines buffer w1 st w2,
             Inv lines buffer w1 -> poll_once e lines buffer w1 = Done st w2 ->
             Inv (fst st) (snd st) w2).
  { intros lines buffer w1 st w2 [Hl Hp] Hrun.
    destruct (poll_once_done _ _ _ _ _ Hrun) as (_ & _ & Hn & Hs & _).
    split; [eapply same_link_trans; eauto | lia]. }
  assert (Hstart : Inv [] EmptyString (tick e w)).
  { split; [apply same_link_tick | simpl; lia]. }
  unfold read_serial_with_timeout, bind at 1, time_time.
  destruct (read_loop e fuel timeout (now w) [] EmptyString (tick e w))
    as [out w'|msg w'|] eqn:Hrun; [| |exact I].
  - destruct (read_loop_rule Inv timeout (now w) Htick Hpoll _ _ _ _ _ _
                Hstart Hrun) as (_ & wg & [Hl Hp] & -> & _).
    split; [|exact Hp].
    eapply same_link_trans; [exact Hl | apply same_link_tick].
  - destruct (read_loop_raise_rule Inv timeout (now w) Htick Hpoll _ _ _ _ _ _
                Hstart Hrun) as (l1 & b1 & w1 & [Hl Hp] & Hr).
    destruct (poll_once_raised _ _ _ _ _ Hr) as [_ Hs].
    split; [eapply same_link_trans; eauto|].
    revert Hr. unfold poll_once, bind, in_waiting.
    destruct (feed e (polls w1)); simpl; try discriminate.
    + intros [= _ <-]. simpl. lia.
    + unfold read_decoded, try_except, bind. simpl.
      destruct (feed e (polls w1)); discriminate.
    + unfold read_decoded, try_except, bind. simpl.
      destruct (feed e (polls w1)); discriminate.
Qed.

(** What the reader returns is determined by the text it received. *)
Lemma read_serial_lines timeout fuel w lines w' :
  read_serial_with_timeout e fuel timeout w = Done lines w' ->
  polls w <= polls w'
  /\ lines = complete_lines (received e (polls w) (polls w' - polls w)).
Proof.
  set (Inv := tracks e (polls w)).
  assert (Htick : forall lines buffer w1,
             Inv lines buffer w1 -> Inv lines buffer (tick e w1)).
  { intros l b w1 H. exact H. }
  assert (Hpoll : forall lines buffer w1 st w2,
             Inv lines buffer w1 -> poll_once e lines buffer w1 = Done st w2 ->
             Inv (fst st) (snd st) w2).
  { intros l b w1 st w2 (Hp & Hl & Hb) Hrun.
    destruct (poll_once_done _ _ _ _ _ Hrun) as (-> & _ & Hn & _ & _).
    unfold Inv, tracks. rewrite Hn.
    replace (S (polls w1) - polls w) with (S (polls w1 - polls w)) by lia.
    rewrite received_snoc.
    replace (polls w + (polls w1 - polls w)) with (polls w1) by lia.
    rewrite complete_lines_append, partial_line_append, <- Hl, <- Hb.
    split; [lia|].
    assert (Hcut : cut b = ([], b)) by (rewrite Hb; apply cut_partial_line).
    destruct (feed e (polls w1)) as [m| |m|text]; simpl;
      rewrite ?append_empty_r.
    1-3: unfold complete_lines, partial_line; rewrite Hcut; simpl;
         rewrite app_nil_r; auto.
    rewrite drain_cut by lia. auto. }
  assert (Hstart : Inv [] EmptyString (tick e w)).
  { unfold Inv, tracks. simpl. rewrite Nat.sub_diag. simpl. auto. }
  unfold read_serial_with_timeout, bind at 1, time_time. intros Hrun.
  destruct (read_loop_rule Inv timeout (now w) Htick Hpoll _ _ _ _ _ _
              Hstart Hrun) as (b & wg & (Hp & Hl & _) & -> & _).
  simpl. auto.
Qed.

(** The reader returns on a clock reading past its timeout. *)
Lemma read_serial_elapsed timeout fuel w lines w' :
  steady e ->
  read_serial_with_timeout e fuel timeout w = Done lines w' ->
  (timeout <= now w' - now w)%Z.
Proof.
  intros Hs. unfold read_serial_with_timeout, bind at 1, time_time.
  intros Hrun.
  destruct (read_loop_rule (fun _ _ _ => True) timeout (now w)
              (fun _ _ _ _ => I) (fun _ _ _ _ _ _ _ => I)
              _ _ _ _ _ _ I Hrun) as (_ & wg & _ & -> & Hle).
  simpl. pose proof (Hs (step wg)). lia.
Qed.

(** An exception leaves the reader only when [in_waiting] raises it. *)
Lemma read_serial_raised timeout fuel w msg w' :
  read_serial_with_timeout e fuel timeout w = Raised msg w' ->
  exists k, polls w <= k /\ feed e k = Fault msg.
Proof.
  unfold read_serial_with_timeout, bind at 1, time_time. intros Hrun.
  assert (Hpoll : forall (l : list string) (b : string) w1 st w2,
             polls w <= polls w1 -> poll_once e l b w1 = Done st w2 ->
             polls w <= polls w2).
  { intros l b w1 st w2 Hp Hd.
    destruct (poll_once_done _ _ _ _ _ Hd) as (_ & _ & Hn & _). lia. }
  destruct (read_loop_raise_rule (fun _ _ w1 => polls w <= polls w1)
              timeout (now w) (fun _ _ _ H => H) Hpoll
              fuel [] EmptyString (tick e w) msg w' (le_n _) Hrun)
    as (l1 & b1 & w1 & Hp & Hr).
  exists (polls w1). split; [exact Hp|].
  now destruct (poll_once_raised _ _ _ _ _ Hr).
Qed.

(** With a steady clock every round brings the deadline a millisecond
    closer. *)
Lemma read_loop_terminates timeout start :
  steady e ->
  forall n lines buffer w,
    (start + timeout - now w <= millisecond * Z.of_nat n)%Z ->
    read_loop e (S n) timeout start lines buffer w <> OutOfFuel.
Proof.
  intros Hs.
  induction n as [|n IH]; intros lines buffer w Hrem;
    cbn [read_loop]; unfold bind at 1, time_time;
    destruct (now w - start <? timeout)%Z eqn:Hguard;
    try (unfold ret; discriminate);
    apply Z.ltb_lt in Hguard.
  - simpl in Hrem. lia.
  - unfold bind.
    destruct (poll_once e lines buffer (tick e w)) as [st w1|m w1|] eqn:Hp;
      [| discriminate | now apply poll_once_fuel in Hp].
    apply IH.
    destruct (poll_once_done _ _ _ _ _ Hp) as (_ & _ & _ & _ & Ht).
    specialize (Ht Hs). simpl in Ht. pose proof (Hs (step w)).
    unfold millisecond in *. lia.
Qed.

Lemma read_serial_terminates timeout fuel w :
  steady e ->
  rounds_needed timeout <= fuel ->
  read_serial_with_timeout e fuel timeout w <> OutOfFuel.
Proof.
  intros Hs Hfuel. unfold rounds_needed in Hfuel.
  destruct fuel as [|n]; [lia|].
  unfold read_serial_with_timeout, bind at 1, time_time.
  apply read_loop_terminates; [exact Hs|].
  cbn [now tick]. pose proof (Hs (step w)).
  assert (Hdiv : (timeout < millisecond * Z.succ (timeout / millisecond))%Z)
    by (apply Z.mul_succ_div_gt; unfold millisecond; lia).
  unfold millisecond in *.
  destruct (Z_lt_le_dec (timeout / 1000 + 1) 0) as [Hneg|Hpos]; lia.
Qed.

End Reader.

Lemma received_silent (e : Env) (count : nat) :
  forall from,
    (forall k, from <= k -> text_of (feed e k) = EmptyString) ->
    received e from count = EmptyString.
Proof.
  induction count as [|n IH]; intros from Hq; simpl; [reflexivity|].
  rewrite Hq by lia. simpl. apply IH. intros k Hk. apply Hq. lia.
Qed.

Lemma complete_lines_truthy (s : string) :
  Forall (fun line =>
            Text.truthy line = true
            /\ exists segment,
                In segment (fst (cut s)) /\ line = Text.strip segment)
         (complete_lines s).
Proof.
  unfold complete_lines. apply Forall_forall. intros l Hin.
  apply filter_In in Hin. destruct Hin as [Hin Ht].
  apply in_map_iff in Hin. destruct Hin as (seg & <- & Hseg). eauto.
Qed.

(** C6: for every timeout and every behaviour of the port, on a clock that
    is never set back, [read_serial_with_timeout] terminates within
    [rounds_needed timeout] rounds; whenever it returns, at least the
    timeout has elapsed, whatever data arrived; it returns unless
    [in_waiting] itself raises; and on a port that never has a byte it
    returns the empty list. *)
Theorem read_serial_with_timeout_waits_out_its_timeout
        (e : Env) (timeout : Z) (fuel : nat) (w : World) :
  steady e ->
  rounds_needed timeout <= fuel ->
  read_serial_with_timeout e fuel timeout w <> OutOfFuel
  /\ (forall lines w',
         read_serial_with_timeout e fuel timeout w = Done lines w' ->
         (timeout <= now w' - now w)%Z)
  /\ ((forall k msg, polls w <= k -> feed e k <> Fault msg) ->
      exists lines w',
        read_serial_with_timeout e fuel timeout w = Done lines w')
  /\ ((forall k, polls w <= k -> feed e k = Quiet) ->
      exists w',
        read_serial_with_timeout e fuel timeout w = Done [] w'
        /\ (timeout <= now w' - now w)%Z).
Proof.
  intros Hs Hfuel.
  pose proof (read_serial_terminates e timeout fuel w Hs Hfuel) as Hterm.
  assert (Hret : (forall k msg, polls w <= k -> feed e k <> Fault msg) ->
                 exists lines w',
                   read_serial_with_timeout e fuel timeout w = Done lines w').
  { intros Hnf.
    destruct (read_serial_with_timeout e fuel timeout w)
      as [lines w'|msg w'|] eqn:Hrun; [eauto | | contradiction].
    destruct (read_serial_raised _ _ _ _ _ _ Hrun) as (k & Hk & Hf).
    now destruct (Hnf k msg Hk). }
  repeat split; [exact Hterm | | exact Hret |].
  - intros lines w'. now apply read_serial_elapsed.
  - intros Hq. destruct Hret as (lines & w' & Hrun).
    { intros k msg Hk. rewrite (Hq k Hk). discriminate. }
    exists w'. destruct (read_serial_lines _ _ _ _ _ _ Hrun) as [_ Hl].
    rewrite received_silent in Hl
      by (intros k Hk; now rewrite (Hq k Hk)).
    split; [now rewrite Hrun, Hl|].
    now apply (read_serial_elapsed e _ _ _ _ _ Hs Hrun).
Qed.

(** C6 at a port that stays silent for a five-second timeout. *)
Lemma read_serial_with_timeout_waits_out_its_timeout_witness :
  read_serial_with_timeout (bench (seconds 1) [])
                           (rounds_needed (seconds 5)) (seconds 5) boot
  <> OutOfFuel
  /\ exists w',
      read_serial_with_timeout (bench (seconds 1) [])
                               (rounds_needed (seconds 5)) (seconds 5) boot
      = Done [] w'
      /\ (seconds 5 <= now w' - now boot)%Z.
Proof.
  assert (Hs : steady (bench (seconds 1) [])) by (intros k; simpl; lia).
  destruct (read_serial_with_timeout_waits_out_its_timeout
              (bench (seconds 1) []) (seconds 5) _ boot Hs (le_n _))
    as (Hterm & _ & _ & Hquiet).
  split; [exact Hterm|]. apply Hquiet.
  intros k _. unfold bench, script; simpl. now destruct k as [|[|k]].
Defined.

(** C10: the lines a call of [read_serial_with_timeout] returns are the
    newline-terminated segments of the text received during that call,
    stripped, the empty ones left out; the text after the last newline is in
    none of them, and a later call returns the lines of the text it receives
    itself, without what the earlier call left unterminated. *)
Theorem read_serial_with_timeout_drops_partial_line
        (e : Env) (fuel : nat) (timeout timeout' : Z)
        (w w1 w2 : World) (lines lines' : list string) :
  read_serial_with_timeout e fuel timeout w = Done lines w1 ->
  read_serial_with_timeout e fuel timeout' w1 = Done lines' w2 ->
  lines = complete_lines (received e (polls w) (polls w1 - polls w))
  /\ Forall (fun line =>
               Text.truthy line = true
               /\ exists segment,
                   In segment
                      (fst (cut (received e (polls w) (polls w1 - polls w))))
                   /\ line = Text.strip segment)
            lines
  /\ lines' = complete_lines (received e (polls w1) (polls w2 - polls w1)).
Proof.
  intros H1 H2.
  destruct (read_serial_lines _ _ _ _ _ _ H1) as [_ Hl1].
  destruct (read_serial_lines _ _ _ _ _ _ H2) as [_ Hl2].
  repeat split; [exact Hl1 | | exact Hl2].
  rewrite Hl1. apply complete_lines_truthy.
Qed.

(** C10 at a port that delivers ["abc\npar"] during one call and
    ["tial\n"] during the next: the first call returns ["abc"], the second
    ["tial"]. *)
Lemma read_serial_with_timeout_drops_partial_line_witness :
  let e := bench (seconds 2)
                 [Data ("abc" ++ nl ++ "par")%string;
                  Data ("tial" ++ nl)%string] in
  exists w1 w2,
    read_serial_with_timeout e 9 (seconds 5) boot = Done ["abc"] w1
    /\ read_serial_with_timeout e 9 (seconds 5) w1 = Done ["tial"] w2
    /\ ["abc"]
       = complete_lines (received e (polls boot) (polls w1 - polls boot))
    /\ ["tial"] = complete_lines (received e (polls w1) (polls w2 - polls w1)).
Proof.
  intros e.
  destruct (read_serial_with_timeout e 9 (seconds 5) boot)
    as [l1 w1| |] eqn:H1; try (vm_compute in H1; discriminate).
  destruct (read_serial_with_timeout e 9 (seconds 5) w1)
    as [l2 w2| |] eqn:H2;
    try (vm_compute in H1; injection H1 as <- <-;
         vm_compute in H2; discriminate).
  destruct (read_serial_with_timeout_drops_partial_line
              e 9 (seconds 5) (seconds 5) boot w1 w2 l1 l2 H1 H2)
    as (Ha & _ & Hb).
  exists w1, w2.
  assert (l1 = ["abc"]) as Hl1
      by (vm_compute in H1; now injection H1 as <- <-).
  assert (l2 = ["tial"]) as Hl2
      by (vm_compute in H1; injection H1 as <- <-;
          vm_compute in H2; now injection H2 as <- <-).
  subst l1 l2. rewrite H2, !Hl1, !Hl2. repeat split; reflexivity.
Defined.

(** ** The readiness classifier *)

Lemma length_filter_sum {A} (p : A -> bool) (xs : list A) :
  List.length (filter p xs)
  = list_sum (map (fun x => if p x then 1 else 0) xs).
Proof.
  induction xs as [|x xs IH]; simpl; [reflexivity|].
  destruct (p x); simpl; now rewrite IH.
Qed.

Lemma list_sum_add {A} (f g : A -> nat) (xs : list A) :
  list_sum (map (fun x => f x + g x) xs)
  = list_sum (map f xs) + list_sum (map g xs).
Proof. induction xs as [|x xs IH]; simpl; [reflexivity | rewrite IH; lia]. Qed.

(** [found_indicators] has one entry for every line an indicator occurs
    in. *)
Lemma found_indicators_length (lines : list string) :
  List.length (found_indicators lines)
  = list_sum (map (fun indicator => occurrences indicator lines)
                  ready_indicators).
Proof.
  unfold found_indicators, occurrences.
  induction lines as [|l lines IH].
  - reflexivity.
  - cbn [flat_map]. rewrite length_app, IH, length_filter_sum.
    rewrite <- list_sum_add. f_equal. apply map_ext. intros ind.
    cbn [filter]. destruct (Text.contains ind l); reflexivity.
Qed.

Lemma occurrences_none (indicator : string) (lines : list string) :
  existsb (Text.contains indicator) lines = false ->
  occurrences indicator lines = 0.
Proof.
  unfold occurrences. induction lines as [|l lines IH]; simpl; [reflexivity|].
  destruct (Text.contains indicator l); simpl; [discriminate | exact IH].
Qed.

Lemma occurrences_some (indicator : string) (lines : list string) :
  existsb (Text.contains indicator) lines = true ->
  1 <= occurrences indicator lines.
Proof.
  unfold occurrences. induction lines as [|l lines IH]; simpl; [discriminate|].
  destruct (Text.contains indicator l); simpl; [lia | exact IH].
Qed.

(** What [wait_for_system_ready] tests is the length of [found_indicators],
    which has one entry for every line an indicator occurs in.  Two distinct
    indicators anywhere in the batch therefore give true, as intended; but a
    single indicator gives true as well once it occurs in two lines. *)
Lemma wait_for_system_ready_counts_occurrences
        (e : Env) (fuel : nat) (timeout : Z) (w w' : World)
        (lines : list string) :
  read_serial_with_timeout e fuel timeout w = Done lines w' ->
  exists ready,
    wait_for_system_ready e fuel timeout w = Done ready w'
    /\ (ready = true <->
        2 <= list_sum (map (fun indicator => occurrences indicator lines)
                           ready_indicators))
    /\ (2 <= List.length (distinct_found lines) -> ready = true)
    /\ (forall indicator,
           distinct_found lines = [indicator] ->
           (ready = true <-> 2 <= occurrences indicator lines)).
Proof.
  intros Hrun. exists (2 <=? List.length (found_indicators lines))%nat.
  split; [unfold wait_for_system_ready, bind; now rewrite Hrun|].
  rewrite Nat.leb_le, found_indicators_length.
  unfold distinct_found, ready_indicators.
  cbn [map list_sum fold_right filter].
  split; [reflexivity|].
  split.
  - intros Hd.
    repeat match goal with
           | Hd : context [existsb (Text.contains ?i) lines] |- _ =>
               let H := fresh "Hx" in
               destruct (existsb (Text.contains i) lines) eqn:H;
               [apply occurrences_some in H | apply occurrences_none in H]
           end; cbn [List.length] in Hd; rewrite ?Nat.leb_le; lia.
  - intros ind.
    repeat match goal with
           | |- context [existsb (Text.contains ?i) lines] =>
               let H := fresh "Hx" in
               destruct (existsb (Text.contains i) lines) eqn:H;
               [apply occurrences_some in H | apply occurrences_none in H]
           end; intros Heq; inversion Heq; subst; rewrite ?Nat.leb_le; lia.
Qed.

(** C1 on the code: the device prints ["Crash handler initialized"] twice
    during the start-up wait and no other readiness indicator.  The batch
    holds one distinct indicator, so readiness is to be refused; but
    [found_indicators] holds that indicator twice, its length reaches the
    threshold, and [wait_for_system_ready] returns true. *)
Theorem wait_for_system_ready_ready_on_one_indicator :
  let e := bench (seconds 2)
                 [Data ("Crash handler initialized" ++ nl
                        ++ "Crash handler initialized" ++ nl)%string] in
  exists lines w',
    read_serial_with_timeout e 40 (seconds 60) boot = Done lines w'
    /\ lines = ["Crash handler initialized"; "Crash handler initialized"]
    /\ distinct_found lines = ["Crash handler initialized"]
    /\ found_indicators lines
       = ["Crash handler initialized"; "Crash handler initialized"]
    /\ wait_for_system_ready e 40 (seconds 60) boot = Done true w'.
Proof.
  intros e. eexists; eexists.
  split; [vm_compute; reflexivity|].
  repeat split; vm_compute; reflexivity.
Qed.

(** ** The regular expressions *)

Lemma is_digit_lower (c : ascii) :
  Text.is_digit (Text.lower c) = Text.is_digit c.
Proof. destruct c as [[] [] [] [] [] [] [] []]; reflexivity. Qed.

Lemma is_newline_lower (c : ascii) :
  Ascii.eqb (Text.lower c) Text.newline = Ascii.eqb c Text.newline.
Proof. destruct c as [[] [] [] [] [] [] [] []]; reflexivity. Qed.

Lemma in_class_nocase (cl : Re.cclass) (c1 c2 : ascii) :
  Text.lower c1 = Text.lower c2 -> Re.in_class cl c1 = Re.in_class cl c2.
Proof.
  intros H. destruct cl; simpl.
  - now rewrite <- (is_digit_lower c1), <- (is_digit_lower c2), H.
  - now rewrite <- (is_newline_lower c1), <- (is_newline_lower c2), H.
Qed.

Lemma many_nocase (cl : Re.cclass) (k1 k2 : Re.cont) :
  alike k1 k2 ->
  forall s1 s2 caps1 caps2,
    lowercase s1 = lowercase s2 ->
    (Re.many cl s1 caps1 k1 = None <-> Re.many cl s2 caps2 k2 = None).
Proof.
  intros Hk. induction s1 as [|c1 s1 IH]; intros [|c2 s2] caps1 caps2 Hs;
    try discriminate.
  - simpl. now apply Hk.
  - injection Hs as Hc Hs.
    assert (Hwhole : lowercase (String c1 s1) = lowercase (String c2 s2))
      by (simpl; now rewrite Hc, Hs).
    simpl. rewrite (in_class_nocase cl c1 c2 Hc).
    destruct (Re.in_class cl c2); [|now apply Hk].
    specialize (IH s2 caps1 caps2 Hs).
    specialize (Hk _ _ caps1 caps2 Hwhole).
    destruct (Re.many cl s1 caps1 k1), (Re.many cl s2 caps2 k2);
      intuition congruence.
Qed.

(** Matching does not see the case of the letters of the text. *)
Lemma matches_nocase (r : Re.regex) :
  forall k1 k2 s1 s2 caps1 caps2,
    alike k1 k2 ->
    lowercase s1 = lowercase s2 ->
    (Re.matches r s1 caps1 k1 = None <-> Re.matches r s2 caps2 k2 = None).
Proof.
  induction r as [p| |cl|a IHa b IHb|a IHa b IHb|a IHa];
    intros k1 k2 s1 s2 caps1 caps2 Hk Hs; simpl.
  - destruct s1 as [|c1 s1], s2 as [|c2 s2]; try discriminate;
      [tauto|].
    injection Hs as Hc Hs. unfold Re.same_nocase. rewrite Hc.
    destruct (Ascii.eqb (Text.lower p) (Text.lower c2)); [now apply Hk | tauto].
  - now apply Hk.
  - destruct s1 as [|c1 s1], s2 as [|c2 s2]; try discriminate;
      [tauto|].
    injection Hs as Hc Hs. rewrite (in_class_nocase cl c1 c2 Hc).
    destruct (Re.in_class cl c2); [now apply many_nocase | tauto].
  - apply IHa; [|exact Hs].
    intros t1 t2 c1 c2 Ht. now apply IHb.
  - specialize (IHa k1 k2 s1 s2 caps1 caps2 Hk Hs).
    specialize (IHb k1 k2 s1 s2 caps1 caps2 Hk Hs).
    destruct (Re.matches a s1 caps1 k1), (Re.matches a s2 caps2 k2);
      intuition congruence.
  - apply IHa; [|exact Hs].
    intros t1 t2 c1 c2 Ht. now apply Hk.
Qed.

Lemma search_nocase (r : Re.regex) :
  forall s1 s2,
    lowercase s1 = lowercase s2 ->
    (Re.search r s1 = None <-> Re.search r s2 = None).
Proof.
  induction s1 as [|c1 s1 IH]; intros [|c2 s2] Hs; try discriminate.
  - tauto.
  - assert (Hhere :
             Re.matches r (String c1 s1) [] (fun _ caps => Some caps) = None
             <-> Re.matches r (String c2 s2) [] (fun _ caps => Some caps)
                 = None).
    { apply matches_nocase; [|exact Hs]. intros t1 t2 x1 x2 _.
      split; discriminate. }
    injection Hs as _ Hs. specialize (IH s2 Hs). simpl in *.
    destruct (Re.matches r (String c1 s1) [] (fun _ caps => Some caps)),
      (Re.matches r (String c2 s2) [] (fun _ caps => Some caps));
      intuition congruence.
Qed.

(** A pattern without a group captures nothing. *)
Lemma many_groups (cl : Re.cclass) (k : Re.cont) :
  forall s caps groups,
    Re.many cl s caps k = Some groups ->
    exists s', k s' caps = Some groups.
Proof.
  induction s as [|c s IH]; intros caps groups; simpl; [eauto|].
  destruct (Re.in_class cl c); [|eauto].
  destruct (Re.many cl s caps k) eqn:Hm; [|eauto].
  intros [= <-]. eauto.
Qed.

Lemma matches_group_free (r : Re.regex) :
  group_free r = true ->
  forall s caps k groups,
    Re.matches r s caps k = Some groups ->
    exists s', k s' caps = Some groups.
Proof.
  induction r as [p| |cl|a IHa b IHb|a IHa b IHb|a IHa]; simpl;
    intros Hg s caps k groups.
  - destruct s as [|c s]; [discriminate|].
    destruct (Re.same_nocase p c); [eauto | discriminate].
  - eauto.
  - destruct s as [|c s]; [discriminate|].
    destruct (Re.in_class cl c); [apply many_groups | discriminate].
  - apply andb_prop in Hg. destruct Hg as [Ha Hb]. intros Hm.
    destruct (IHa Ha _ _ _ _ Hm) as (s' & Hm'). eauto.
  - apply andb_prop in Hg. destruct Hg as [Ha Hb].
    destruct (Re.matches a s caps k) eqn:Hm.
    + intros [= <-]. eauto.
    + eauto.
  - discriminate.
Qed.

Lemma search_group_free (r : Re.regex) (s : string) (groups : list string) :
  group_free r = true -> Re.search r s = Some groups -> groups = [].
Proof.
  intros Hg. induction s as [|c s IH]; simpl.
  - destruct (Re.matches r EmptyString [] (fun _ caps => Some caps)) eqn:Hm;
      [|discriminate].
    intros [= <-].
    destruct (matches_group_free r Hg _ _ _ _ Hm) as (s' & [= <-]).
    reflexivity.
  - destruct (Re.matches r (String c s) [] (fun _ caps => Some caps)) eqn:Hm;
      [|exact IH].
    intros [= <-].
    destruct (matches_group_free r Hg _ _ _ _ Hm) as (s' & [= <-]).
    reflexivity.
Qed.

(** ** The crash-log classifier *)

Section CrashLogs.

Variable e : Env.

(** The inner loop adds, for one line, an entry for every pattern that
    matches it; it cannot raise. *)
Lemma scan_line (line : string) :
  forall table logs w,
    exists more w',
      foldM (log_match e line) table logs w = Done (logs ++ more) w'
      /\ map untimed more = hits_in table line
      /\ same_link w w' /\ polls w' = polls w.
Proof.
  induction table as [|[pattern_name pattern] table IH]; intros logs w.
  - exists [], w. simpl. rewrite app_nil_r.
    repeat split; reflexivity.
  - cbn [foldM]. unfold bind at 1. unfold log_match at 1.
    unfold hits_in. cbn [flat_map fst snd].
    destruct (Re.search pattern line) as [groups|].
    + unfold bind, datetime_now, ret.
      destruct (IH (logs ++
                    [{| type := pattern_name; line := line;
                        data := match groups with
                                | [] => None
                                | _ :: _ => Some groups
                                end;
                        timestamp := now w |}]) (tick e w))
        as (more & w' & Hrun & Hmore & Hlink & Hpolls).
      eexists (_ :: more), w'. rewrite Hrun, <- app_assoc. simpl.
      repeat split; try apply Hlink; [|exact Hpolls].
      unfold hits_in in Hmore. rewrite Hmore.
      unfold untimed, groups_or_none. simpl. reflexivity.
    + unfold ret. destruct (IH logs w) as (more & w' & Hrun & Hmore & Hl).
      exists more, w'. simpl. auto.
Qed.

Lemma scan_lines :
  forall lines logs w,
    exists more w',
      foldM (fun crash_logs line =>
               foldM (log_match e line) patterns crash_logs)
            lines logs w
      = Done (logs ++ more) w'
      /\ map untimed more = flat_map hits lines
      /\ same_link w w' /\ polls w' = polls w.
Proof.
  induction lines as [|l lines IH]; intros logs w.
  - exists [], w. simpl. rewrite app_nil_r. repeat split; reflexivity.
  - cbn [foldM]. unfold bind at 1.
    destruct (scan_line l patterns logs w)
      as (here & w1 & -> & Hhere & Hl1 & Hp1).
    destruct (IH (logs ++ here) w1) as (rest & w2 & -> & Hrest & Hl2 & Hp2).
    exists (here ++ rest), w2. rewrite <- app_assoc, map_app, Hhere, Hrest.
    repeat split; try reflexivity.
    + eapply same_link_trans; eauto.
    + eapply same_link_trans; eauto.
    + eapply same_link_trans; eauto.
    + congruence.
Qed.

(** [parse_crash_logs] always returns, and apart from the timestamps its
    entries are a function of the lines. *)
Lemma parse_crash_logs_hits (lines : list string) (w : World) :
  exists logs w',
    parse_crash_logs e lines w = Done logs w'
    /\ map untimed logs = flat_map hits lines
    /\ same_link w w' /\ polls w' = polls w.
Proof. exact (scan_lines lines [] w). Qed.

End CrashLogs.

(** C7, as the code has it: [detect_reboot] reads nothing but its lines, and
    two runs of [parse_crash_logs] on the same batch, in whatever state of
    the world, both return, with the same number of entries in the same
    order and the same [type], [line] and [data] in each; the [timestamp] of
    an entry is the wall clock at the moment of the match and is not part of
    what coincides. *)
Theorem parse_crash_logs_same_up_to_timestamps
        (e e' : Env) (lines : list string) (w w' : World) :
  exists logs logs' v v',
    parse_crash_logs e lines w = Done logs v
    /\ parse_crash_logs e' lines w' = Done logs' v'
    /\ List.length logs = List.length logs'
    /\ map untimed logs = map untimed logs'.
Proof.
  destruct (parse_crash_logs_hits e lines w) as (logs & v & Hrun & Hlogs & _).
  destruct (parse_crash_logs_hits e' lines w')
    as (logs' & v' & Hrun' & Hlogs' & _).
  exists logs, logs', v, v'. repeat split; try assumption.
  - rewrite <- (length_map untimed logs), <- (length_map untimed logs').
    congruence.
  - congruence.
Qed.

(** C7 as stated fails: on a clock that moves, two runs of
    [parse_crash_logs] on the line ["Storing crash log"], one after the
    other, return entries with different timestamps. *)
Lemma parse_crash_logs_counterexample :
  let e := bench (seconds 2) [] in
  exists logs w1 logs' w2,
    parse_crash_logs e ["Storing crash log"] boot = Done logs w1
    /\ parse_crash_logs e ["Storing crash log"] w1 = Done logs' w2
    /\ map timestamp logs = [0%Z]
    /\ map timestamp logs' = [seconds 2]
    /\ logs <> logs'.
Proof.
  intros e. do 4 eexists.
  split; [vm_compute; reflexivity|].
  split; [vm_compute; reflexivity|].
  split; [reflexivity|]. split; [reflexivity|].
  discriminate.
Qed.

Lemma pattern_named_stored (entry : string * Re.regex) :
  In entry patterns -> fst entry = "stored" -> group_free (snd entry) = true.
Proof.
  unfold patterns. simpl.
  intros [<-|[<-|[<-|[<-|[]]]]]; simpl; intros H;
    solve [discriminate H | reflexivity].
Qed.

(** C8: [parse_crash_logs] returns one entry for every line and every
    pattern that matches it, in the order of the lines and of the patterns,
    so a line that k patterns match gives k entries; whether a pattern
    matches does not depend on the case of the letters of the line; the line
    ["Test crash logged: overflow"] gives one entry, with the groups
    [["overflow"]]; a line that no pattern matches gives no entry; and the
    entries of the pattern without a group, [stored], carry no groups (the
    code stores [None] in [data] for them). *)
Theorem parse_crash_logs_one_entry_per_match
        (e : Env) (lines : list string) (w : World) :
  exists logs w',
    parse_crash_logs e lines w = Done logs w'
    /\ map untimed logs = flat_map hits lines
    /\ List.length logs
       = list_sum
           (map (fun line =>
                   List.length
                     (filter (fun entry => matched (snd entry) line) patterns))
                lines)
    /\ (forall line line' entry,
           In entry patterns ->
           lowercase line = lowercase line' ->
           matched (snd entry) line = matched (snd entry) line')
    /\ hits "Test crash logged: overflow"
       = [("test_logged", "Test crash logged: overflow", Some ["overflow"])]
    /\ hits "E (1234) CRASH: TEST CRASH LOGGED: Overflow"
       = [("test_logged", "E (1234) CRASH: TEST CRASH LOGGED: Overflow",
           Some ["Overflow"])]
    /\ hits "Crash log manager initialized - 3 logs stored"
       = [("init", "Crash log manager initialized - 3 logs stored",
           Some ["3"]);
          ("stored", "Crash log manager initialized - 3 logs stored", None)]
    /\ (forall line,
           (forall entry,
               In entry patterns -> matched (snd entry) line = false) ->
           hits line = [])
    /\ (forall log,
           In log logs -> type log = "stored" ->
           data log = None /\ captured_groups log = []).
Proof.
  destruct (parse_crash_logs_hits e lines w) as (logs & w' & Hrun & Hlogs & _).
  assert (Hcount : forall (table : list (string * Re.regex)) line,
             List.length (hits_in table line)
             = List.length
                 (filter (fun entry => matched (snd entry) line) table)).
  { intros table line. unfold hits_in, matched.
    induction table as [|entry table IH]; simpl; [reflexivity|].
    rewrite length_app, IH.
    destruct (Re.search (snd entry) line); reflexivity. }
  exists logs, w'. split; [exact Hrun|]. split; [exact Hlogs|].
  split; [|split; [|split; [|split; [|split; [|split]]]]].
  - rewrite <- (length_map untimed logs), Hlogs, length_flat_map.
    f_equal. apply map_ext. intros line. apply Hcount.
  - intros line line' entry _ Hcase. unfold matched.
    pose proof (search_nocase (snd entry) line line' Hcase) as Hiff.
    destruct (Re.search (snd entry) line), (Re.search (snd entry) line');
      intuition congruence.
  - vm_compute. reflexivity.
  - vm_compute. reflexivity.
  - vm_compute. reflexivity.
  - intros line Hnone. unfold hits, hits_in.
    assert (Hall : forall table : list (string * Re.regex),
               (forall entry, In entry table ->
                              matched (snd entry) line = false) ->
               flat_map (fun entry : string * Re.regex =>
                           match Re.search (snd entry) line with
                           | Some groups =>
                               [(fst entry, line, groups_or_none groups)]
                           | None => []
                           end) table = []).
    { induction table as [|entry table IH]; intros Ht; [reflexivity|].
      cbn [flat_map]. rewrite IH by (intros x Hx; apply Ht; now right).
      specialize (Ht entry (or_introl eq_refl)). unfold matched in Ht.
      destruct (Re.search (snd entry) line); [discriminate | reflexivity]. }
    now apply Hall.
  - intros log Hin Htype.
    apply (in_map untimed) in Hin. rewrite Hlogs in Hin.
    apply in_flat_map in Hin. destruct Hin as (line & _ & Hin).
    unfold hits, hits_in in Hin. apply in_flat_map in Hin.
    destruct Hin as (entry & Hentry & Hin).
    destruct (Re.search (snd entry) line) as [groups|] eqn:Hs; [|contradiction].
    destruct Hin as [Heq|[]]. unfold untimed in Heq.
    injection Heq as Hname _ Hdata.
    unfold captured_groups. rewrite <- Hdata.
    rewrite (search_group_free (snd entry) line groups);
      [split; reflexivity | | exact Hs].
    apply pattern_named_stored; [exact Hentry | congruence].
Qed.

(** ** The per-test state machine *)

Section Orchestrator.

Variable e : Env.
Variable fuel : nat.

Lemma send_command_done (cmd : string) (w : World) :
  exists ok w', send_command e cmd w = Done ok w'.
Proof.
  unfold send_command, try_except, bind, serial_write, ret.
  destruct (wire e (writes w)); eauto.
Qed.

(** A test other than the soft test returns along one of the five ways of
    [test_run]. *)
Lemma run_crash_test_run (id : string) (cfg : TestConfig)
      (w : World) (r : Result) (w' : World) :
  dict_get id crash_tests = Some cfg ->
  String.eqb id "soft_test" = false ->
  run_crash_test e fuel id w = Done r w' ->
  test_run e fuel id cfg w r w'.
Proof.
  intros Hcfg Hsoft. unfold run_crash_test. rewrite Hcfg.
  unfold bind at 1, time_time.
  unfold bind at 1. unfold with_local, try_except, test_body.
  rewrite Hsoft.
  unfold bind at 1. unfold lift at 1. cbn [fst snd].
  destruct (send_command_done (command cfg) (tick e w)) as (ok & w1 & Hsend).
  rewrite Hsend.
  destruct ok; cbn [negb].
  2: { unfold bind, update, ret. cbn [fst snd]. intros [= <- <-].
       now apply SendFailed. }
  unfold bind at 1. unfold lift at 1. cbn [fst snd].
  destruct (read_serial_with_timeout e fuel (timeout cfg) w1)
    as [lines w2|msg w2|] eqn:Hread.
  3: discriminate.
  2: { unfold bind, update, ret, time_time. cbn [fst snd].
       intros [= <- <-]. eapply ObservationRaised; eauto. }
  unfold bind at 1. unfold update at 1. cbn [fst snd].
  unfold bind at 1. unfold lift at 1. cbn [fst snd].
  destruct (parse_crash_logs_hits e lines w2) as (logs & w3 & Hparse & _).
  rewrite Hparse.
  repeat (unfold bind at 1; unfold update at 1; cbn [fst snd]).
  unfold bind at 1. unfold get at 1.
  cbn [fst snd reboot_detected set_success set_crash_detected set_crash_logs
       set_reboot_detected crash_detected].
  match goal with
  | |- context [set_success ?v ?r] =>
      change (set_success v r) with (analysed id cfg lines logs)
  end.
  destruct (detect_reboot lines) eqn:Hreboot.
  2: { unfold ret, bind, time_time. cbn [fst snd]. intros [= <- <-].
       eapply NoReboot; eauto. }
  unfold lift.  cbn [fst snd].
  destruct (wait_for_system_ready e fuel (seconds 30) w3)
    as [ready w4|msg w4|] eqn:Hwait.
  3: discriminate.
  2: { unfold bind, update, ret, time_time. cbn [fst snd].
       intros [= <- <-]. eapply RecoveryRaised; eauto. }
  destruct ready; unfold bind, update, ret, time_time; cbn [fst snd];
    intros [= <- <-];
    [ apply (Recovery e fuel id cfg w w1 lines w2 logs w3 true w4)
    | apply (Recovery e fuel id cfg w w1 lines w2 logs w3 false w4) ];
    assumption.
Qed.

(** The soft test: one observation of five seconds, and nothing else. *)
Lemma run_crash_test_soft_run (w : World) (r : Result) (w' : World) :
  run_crash_test e fuel "soft_test" w = Done r w' ->
  (exists lines w2,
      read_serial_with_timeout e fuel (seconds 5) (tick e w) = Done lines w2
      /\ r = set_duration (now w2 - now w)
               (set_success (any_indicator test_indicators lines)
                            (new_result "soft_test"))
      /\ w' = tick e w2)
  \/ (exists msg w2,
         read_serial_with_timeout e fuel (seconds 5) (tick e w) = Raised msg w2
         /\ r = set_duration (now w2 - now w)
                  (set_error (Some msg) (new_result "soft_test"))
         /\ w' = tick e w2).
Proof.
  unfold run_crash_test.
  destruct (dict_get "soft_test" crash_tests) as [cfg|] eqn:Hcfg;
    [|vm_compute in Hcfg; discriminate].
  unfold bind at 1, time_time.
  unfold bind at 1. unfold with_local, try_except, test_body.
  rewrite String.eqb_refl.
  unfold bind at 1. unfold lift at 1. cbn [fst snd].
  unfold trigger_soft_crash_test. unfold bind at 1.
  destruct (read_serial_with_timeout e fuel (seconds 5) (tick e w))
    as [lines w2|msg w2|] eqn:Hread.
  - unfold bind, update, lift, ret, time_time. cbn [fst snd].
    intros [= <- <-]. left. exists lines, w2. auto.
  - unfold bind, update, lift, ret, time_time. cbn [fst snd].
    intros [= <- <-]. right. exists msg, w2. auto.
  - discriminate.
Qed.

(** C9: the soft test writes nothing to the port and attempts no write; it
    makes one observation of five seconds and returns right after it, so no
    recovery wait is made; its result carries no reboot verdict and no crash
    log, whatever the lines say; and its [success] is whether a test
    indicator occurs in the lines of that observation (false, with the
    error recorded, when the observation raises). *)
Theorem run_crash_test_soft_test_only_observes
        (w : World) (r : Result) (w' : World) :
  run_crash_test e fuel "soft_test" w = Done r w' ->
  sent w' = sent w
  /\ writes w' = writes w
  /\ reboot_detected r = false
  /\ crash_detected r = false
  /\ crash_logs r = []
  /\ match read_serial_with_timeout e fuel (seconds 5) (tick e w) with
     | Done lines w2 =>
         w' = tick e w2
         /\ error r = None
         /\ (success r = true <->
             exists line indicator,
               In line lines /\ In indicator test_indicators
               /\ Text.contains indicator line = true)
     | Raised msg w2 =>
         w' = tick e w2 /\ error r = Some msg /\ success r = false
     | OutOfFuel => False
     end.
Proof.
  intros Hrun.
  pose proof (read_serial_same_link e (seconds 5) fuel (tick e w)) as Hlink.
  destruct (run_crash_test_soft_run w r w' Hrun)
    as [(lines & w2 & Hread & -> & ->)|(msg & w2 & Hread & -> & ->)];
    rewrite Hread in *; destruct Hlink as [(Hs & Hw & _) _]; simpl;
    repeat split; auto.
  - unfold any_indicator. rewrite existsb_exists.
    intros (line & Hin & Hex). apply existsb_exists in Hex.
    destruct Hex as (ind & Hind & Hc). exists line, ind. auto.
  - intros (line & ind & Hin & Hind & Hc).
    unfold any_indicator. apply existsb_exists. exists line.
    split; [exact Hin|]. apply existsb_exists. exists ind. auto.
Qed.

Lemma positive_length {A} (xs : list A) :
  (0 <? List.length xs)%nat = true -> xs <> [].
Proof. destruct xs; [discriminate | discriminate]. Qed.

(** The policy of [run_crash_test], on the body of its [try] block and for
    any configuration: however a test other than the soft test leaves the
    block, by returning or by an exception, [success] is true only if the
    policy keyed on [expect_reboot] allows it.  With [expect_reboot], a
    reboot and at least one crash-log entry were detected; without it, at
    least one crash-log entry and no reboot.  And when the block is left by
    returning, [success] is true after a reboot only if the recovery wait
    answered true. *)
Lemma test_body_policy (id : string) (cfg : TestConfig) (start : Z)
      (w : World) :
  String.eqb id "soft_test" = false ->
  match test_body e fuel id cfg start (new_result id, w) with
  | Done _ (r, w') =>
      (success r = true ->
       crash_detected r = true /\ crash_logs r <> []
       /\ reboot_detected r = expect_reboot cfg)
      /\ (success r = true -> reboot_detected r = true ->
          exists w3,
            wait_for_system_ready e fuel (seconds 30) w3 = Done true w')
  | Raised _ (r, _) =>
      success r = true ->
      crash_detected r = true /\ crash_logs r <> []
      /\ reboot_detected r = expect_reboot cfg
  | OutOfFuel => True
  end.
Proof.
  intros Hsoft. unfold test_body. rewrite Hsoft.
  unfold bind at 1. unfold lift at 1. cbn [fst snd].
  destruct (send_command_done (command cfg) w) as (ok & w1 & Hsend).
  rewrite Hsend.
  destruct ok; cbn [negb].
  2: { unfold bind, update, ret. cbn [fst snd]. split; discriminate. }
  unfold bind at 1. unfold lift at 1. cbn [fst snd].
  destruct (read_serial_with_timeout e fuel (timeout cfg) w1)
    as [lines w2|msg w2|] eqn:Hread.
  3: exact I.
  2: { cbn. discriminate. }
  unfold bind at 1. unfold update at 1. cbn [fst snd].
  unfold bind at 1. unfold lift at 1. cbn [fst snd].
  destruct (parse_crash_logs_hits e lines w2) as (logs & w3 & Hparse & _).
  rewrite Hparse.
  repeat (unfold bind at 1; unfold update at 1; cbn [fst snd]).
  unfold bind at 1. unfold get at 1.
  cbn [fst snd reboot_detected set_success set_crash_detected set_crash_logs
       set_reboot_detected crash_detected].
  assert (Hlogs : (0 <? List.length logs)%nat = true -> logs <> [])
    by apply positive_length.
  destruct (detect_reboot lines) eqn:Hreboot;
    [unfold lift; cbn [fst snd];
     destruct (wait_for_system_ready e fuel (seconds 30) w3)
       as [[] w4|msg w4|] eqn:Hwait|];
    unfold bind, update, ret; cbn [fst snd];
    try exact I;
    cbn [success reboot_detected crash_detected crash_logs set_success];
    destruct (expect_reboot cfg), (0 <? List.length logs)%nat;
    cbn [andb negb]; try split; try discriminate; eauto.
Qed.

End Orchestrator.

(** C9 at scenario C: the window of the soft test holds
    ["Test crash logged: manual"] and a boot banner; the test succeeds,
    nothing was written, and no reboot is recorded. *)
Lemma run_crash_test_soft_test_only_observes_witness :
  let e := bench (seconds 2)
                 [Data ("Test crash logged: manual" ++ nl
                        ++ "rst:0x1 (POWERON)" ++ nl)%string] in
  exists r w',
    run_crash_test e 40 "soft_test" boot = Done r w'
    /\ success r = true
    /\ sent w' = sent boot
    /\ writes w' = writes boot
    /\ reboot_detected r = false
    /\ crash_logs r = [].
Proof.
  intros e.
  destruct (run_crash_test e 40 "soft_test" boot) as [r w'| |] eqn:Hrun;
    try (vm_compute in Hrun; discriminate).
  destruct (run_crash_test_soft_test_only_observes e 40 boot r w' Hrun)
    as (Hsent & Hwrites & Hreboot & _ & Hlogs & _).
  exists r, w'. repeat split; try assumption.
  vm_compute in Hrun. now injection Hrun as <- _.
Defined.

(** C2 on the code: [null_pointer], which expects a reboot, sees a boot
    banner and a stored crash log in its window, so [success] is set to
    true.  When the thirty-second recovery wait answers false, [success] is
    forced to false, as the policy says.  When [in_waiting] raises during
    that wait (the port goes away while the board restarts), readiness is
    not confirmed either, but the exception passes the line that would
    force [success] to false: the result has a reboot and a crash detected
    and [success] true. *)
Theorem run_crash_test_success_without_recovery :
  let crash_text :=
    ("rst:0x1 (POWERON)" ++ nl ++ "Storing crash log" ++ nl)%string in
  let silent := bench (seconds 2) [Data crash_text] in
  let lost := bench (seconds 2) [Data crash_text; Quiet; Fault "port closed"] in
  (exists cfg w1 lines w2 logs w3 w4 r w',
      dict_get "null_pointer" crash_tests = Some cfg
      /\ expect_reboot cfg = true
      /\ send_command silent (command cfg) (tick silent boot) = Done true w1
      /\ read_serial_with_timeout silent 40 (timeout cfg) w1 = Done lines w2
      /\ detect_reboot lines = true
      /\ parse_crash_logs silent lines w2 = Done logs w3
      /\ List.length logs = 1
      /\ wait_for_system_ready silent 40 (seconds 30) w3 = Done false w4
      /\ run_crash_test silent 40 "null_pointer" boot = Done r w'
      /\ reboot_detected r = true
      /\ crash_detected r = true
      /\ success r = false)
  /\ (exists cfg w1 lines w2 logs w3 w4 r w',
         dict_get "null_pointer" crash_tests = Some cfg
         /\ expect_reboot cfg = true
         /\ send_command lost (command cfg) (tick lost boot) = Done true w1
         /\ read_serial_with_timeout lost 40 (timeout cfg) w1 = Done lines w2
         /\ detect_reboot lines = true
         /\ parse_crash_logs lost lines w2 = Done logs w3
         /\ List.length logs = 1
         /\ wait_for_system_ready lost 40 (seconds 30) w3
            = Raised "port closed" w4
         /\ run_crash_test lost 40 "null_pointer" boot = Done r w'
         /\ reboot_detected r = true
         /\ crash_detected r = true
         /\ success r = true).
Proof.
  intros crash_text silent lost. split.
  - do 9 eexists.
    split; [vm_compute; reflexivity|].
    split; [reflexivity|].
    split; [vm_compute; reflexivity|].
    split; [vm_compute; reflexivity|].
    split; [vm_compute; reflexivity|].
    split; [vm_compute; reflexivity|].
    split; [reflexivity|].
    split; [vm_compute; reflexivity|].
    split; [vm_compute; reflexivity|].
    repeat split; reflexivity.
  - do 9 eexists.
    split; [vm_compute; reflexivity|].
    split; [reflexivity|].
    split; [vm_compute; reflexivity|].
    split; [vm_compute; reflexivity|].
    split; [vm_compute; reflexivity|].
    split; [vm_compute; reflexivity|].
    split; [reflexivity|].
    split; [vm_compute; reflexivity|].
    split; [vm_compute; reflexivity|].
    repeat split; reflexivity.
Qed.

(** C3 on the code: [null_pointer] sees a boot banner and a stored crash
    log in its window, and then [in_waiting] raises during the recovery
    wait (the port goes away while the board restarts).  The result has the
    error set and [success] still true.  When the exception has an empty
    message, [run_test_suite] counts that result as passed. *)
Theorem run_crash_test_error_with_success :
  let crash_text :=
    ("rst:0x1 (POWERON)" ++ nl ++ "Storing crash log" ++ nl)%string in
  let ready_text :=
    ("System Monitor - Fully Initialized" ++ nl
     ++ "Crash handler initialized" ++ nl)%string in
  (exists r w',
      run_crash_test
        (bench (seconds 2) [Data crash_text; Quiet; Fault "port closed"])
        40 "null_pointer" boot
      = Done r w'
      /\ error r = Some "port closed"
      /\ success r = true)
  /\ (exists s w',
         run_test_suite
           (bench (seconds 2)
                  ([Data ready_text] ++ repeat Quiet 9
                   ++ [Data crash_text; Quiet; Fault EmptyString]))
           40 ["null_pointer"] boot
         = Done (Suite s) w'
         /\ map (fun entry => (error (snd entry), success (snd entry)))
                (tests s)
            = [(Some EmptyString, true)]
         /\ passed (summary s) = 1
         /\ errors (summary s) = 0).
Proof.
  intros crash_text ready_text. split.
  - do 2 eexists. split; [vm_compute; reflexivity|]. split; reflexivity.
  - do 2 eexists. split; [vm_compute; reflexivity|].
    repeat split; reflexivity.
Qed.

(** ** The suite *)

Lemma dict_set_keys {V} (key : string) (value : V) (d : list (string * V)) :
  forall k,
    In k (map fst (dict_set key value d)) <-> k = key \/ In k (map fst d).
Proof.
  induction d as [|[k0 v0] d IH]; intros k; simpl.
  - intuition.
  - destruct (String.eqb_spec k0 key) as [->|Hne]; simpl.
    + intuition.
    + rewrite IH. intuition.
Qed.

Lemma dict_set_nodup {V} (key : string) (value : V) (d : list (string * V)) :
  NoDup (map fst d) -> NoDup (map fst (dict_set key value d)).
Proof.
  induction d as [|[k0 v0] d IH]; simpl; intros Hnd.
  - constructor; [intros [] | constructor].
  - destruct (String.eqb_spec k0 key) as [->|Hne]; simpl; [exact Hnd|].
    inversion Hnd as [|x xs Hnotin Hrest]; subst.
    constructor; [|now apply IH].
    rewrite dict_set_keys. intros [Heq|Hin]; [now apply Hne | contradiction].
Qed.

Lemma tally_counts (result : Result) (m : Summary) :
  total (tally result (add_total m)) = total m + 1
  /\ ((passed (tally result (add_total m)) = passed m + 1
       /\ failed (tally result (add_total m)) = failed m
       /\ errors (tally result (add_total m)) = errors m
       /\ has_error result = false /\ success result = true)
      \/ (passed (tally result (add_total m)) = passed m
          /\ failed (tally result (add_total m)) = failed m + 1
          /\ errors (tally result (add_total m)) = errors m
          /\ has_error result = false /\ success result = false)
      \/ (passed (tally result (add_total m)) = passed m
          /\ failed (tally result (add_total m)) = failed m
          /\ errors (tally result (add_total m)) = errors m + 1
          /\ has_error result = true)).
Proof.
  unfold tally. destruct (has_error result); [|destruct (success result)];
    simpl; intuition.
Qed.

Section Suite.

Variable e : Env.
Variable fuel : nat.

(** One round of the loop: an unknown name changes nothing; a known one
    stores the result of its test under its name and counts it once. *)
Lemma suite_step_done (tests_to_run : list string) (id : string)
      (s : SuiteResults) (w : World) (s' : SuiteResults) (w' : World) :
  suite_step e fuel tests_to_run id (s, w) = Done tt (s', w') ->
  (known id = false /\ s' = s)
  \/ (known id = true
      /\ exists result w1,
          run_crash_test e fuel id w = Done result w1
          /\ tests s' = dict_set id result (tests s)
          /\ summary s' = tally result (add_total (summary s))).
Proof.
  unfold suite_step, known.
  destruct (dict_has id crash_tests); [|unfold ret; intros [= <- <-]; auto].
  unfold bind at 1. unfold lift at 1. cbn [fst snd].
  destruct (run_crash_test e fuel id w) as [result w1| |] eqn:Hrun;
    try discriminate.
  repeat (unfold bind at 1; unfold update at 1; cbn [fst snd]).
  intros Hrest. right. split; [reflexivity|]. exists result, w1.
  split; [reflexivity|].
  destruct (negb (id =? last tests_to_run EmptyString)%string);
    [unfold lift, sleep in Hrest; cbn [fst snd] in Hrest
    |unfold ret in Hrest];
    injection Hrest as <- _; split; reflexivity.
Qed.

(** The loop keeps the counters balanced, counts every known name once, and
    keeps one entry for every known name it has met. *)
Lemma suite_loop (tests_to_run : list string) :
  forall names s w s' w',
    for_each names (suite_step e fuel tests_to_run) (s, w) = Done tt (s', w') ->
    total (summary s') = total (summary s) + List.length (filter known names)
    /\ (balanced (summary s) -> balanced (summary s'))
    /\ (NoDup (map fst (tests s)) -> NoDup (map fst (tests s')))
    /\ (forall k,
           In k (map fst (tests s'))
           <-> In k (map fst (tests s)) \/ In k (filter known names)).
Proof.
  induction names as [|id names IH]; intros s w s' w'.
  - simpl. unfold ret. intros [= <- <-]. simpl.
    repeat split; auto; try lia; intuition.
  - cbn [for_each]. unfold bind at 1.
    destruct (suite_step e fuel tests_to_run id (s, w))
      as [[] [s1 w1]| |] eqn:Hstep; try discriminate.
    intros Hrest. destruct (IH _ _ _ _ Hrest) as (Ht & Hb & Hn & Hk).
    destruct (suite_step_done _ _ _ _ _ _ Hstep)
      as [[Hunknown ->]|(Hknown & result & w2 & _ & Htests & Hsum)];
      cbn [filter]; [rewrite Hunknown | rewrite Hknown].
    + auto.
    + destruct (tally_counts result (summary s)) as (Htot & Hcases).
      rewrite <- Hsum in *. rewrite Htests in *.
      repeat split.
      * simpl. lia.
      * intros Hbal. apply Hb. unfold balanced in *.
        destruct Hcases as [H|[H|H]]; lia.
      * intros Hnd. apply Hn. now apply dict_set_nodup.
      * rewrite Hk, dict_set_keys. simpl. intuition.
      * rewrite Hk, dict_set_keys. simpl. intuition.
Qed.

(** A suite that ran is the loop started on an empty result. *)
Lemma run_test_suite_loop (tests_to_run : list string) (w : World)
      (s : SuiteResults) (w' : World) :
  run_test_suite e fuel tests_to_run w = Done (Suite s) w' ->
  exists s0 w0 s1 w1,
    tests s0 = [] /\ total (summary s0) = 0 /\ balanced (summary s0)
    /\ for_each tests_to_run (suite_step e fuel tests_to_run) (s0, w0)
       = Done tt (s1, w1)
    /\ tests s = tests s1 /\ summary s = summary s1
    /\ end_time s <> None.
Proof.
  unfold run_test_suite. unfold bind at 1.
  destruct (connect e w) as [connected w0| |]; try discriminate.
  destruct connected; cbn [negb]; [|unfold ret; discriminate].
  unfold bind at 1.
  destruct (wait_for_system_ready e fuel (seconds 60) w0)
    as [ready w1| |]; try discriminate.
  destruct ready; cbn [negb].
  2: { unfold bind, ret. destruct (disconnect e w1); discriminate. }
  unfold bind at 1, datetime_now. unfold bind at 1.
  unfold with_local, try_finally. intros Hrun.
  match type of Hrun with
  | context [for_each tests_to_run _ (?s0, ?w0)] =>
      destruct (for_each tests_to_run (suite_step e fuel tests_to_run)
                         (s0, w0)) as [[] [s1 w2]|msg [s1 w2]|] eqn:Hloop;
      [exists s0, w0, s1, w2 | |]
  end;
    unfold bind, lift, update, datetime_now, ret in Hrun;
    cbn [fst snd] in Hrun;
    try destruct (disconnect e (tick e w2)) as [[] w3|msg' w3|];
    try discriminate.
  cbn [fst snd] in Hrun. inversion Hrun; subst.
  repeat split; try reflexivity; try assumption. simpl. discriminate.
Qed.

End Suite.

(** C4, as the code has it: after a suite that ran, [total] is the number of
    requested names that are in the catalog, repeats counted, while the
    mapping of outcomes has one entry for each distinct such name, a later
    run of a name replacing the outcome of an earlier one.  So the mapping
    never has more entries than [total], and the two are equal whenever no
    known name is requested twice. *)
Theorem run_test_suite_total
        (e : Env) (fuel : nat) (tests_to_run : list string) (w : World)
        (s : SuiteResults) (w' : World) :
  run_test_suite e fuel tests_to_run w = Done (Suite s) w' ->
  total (summary s) = List.length (filter known tests_to_run)
  /\ List.length (tests s)
     = List.length (nodup string_dec (filter known tests_to_run))
  /\ List.length (tests s) <= total (summary s)
  /\ (NoDup (filter known tests_to_run) ->
      total (summary s) = List.length (tests s)).
Proof.
  intros Hrun.
  destruct (run_test_suite_loop e fuel tests_to_run w s w' Hrun)
    as (s0 & w0 & s1 & w1 & Ht0 & Hz & _ & Hloop & Hts & Hsum & _).
  destruct (suite_loop e fuel tests_to_run _ _ _ _ _ Hloop)
    as (Htotal & _ & Hnodup & Hkeys).
  rewrite Ht0 in Hnodup, Hkeys. simpl in Hnodup, Hkeys.
  specialize (Hnodup (NoDup_nil _)).
  rewrite Hts, Hsum, Htotal, Hz. simpl.
  assert (Hlen : List.length (tests s1)
                 = List.length (nodup string_dec (filter known tests_to_run))).
  { rewrite <- (length_map fst (tests s1)).
    apply Nat.le_antisymm; apply NoDup_incl_length;
      try assumption; try apply NoDup_nodup;
      intros k Hk.
    - apply nodup_In. apply Hkeys in Hk. tauto.
    - apply nodup_In in Hk. apply Hkeys. tauto. }
  repeat split.
  - exact Hlen.
  - rewrite <- (length_map fst (tests s1)).
    apply NoDup_incl_length; [assumption|].
    intros k Hk. apply Hkeys in Hk. tauto.
  - intros Hnd. rewrite Hlen, nodup_fixed_point by assumption. reflexivity.
Qed.

(** C4 as stated fails: when ["soft_test"] is requested twice, [total] is 2
    and the mapping of outcomes has one entry. *)
Lemma run_test_suite_total_counterexample :
  let e := bench (seconds 2)
                 [Data ("System Monitor - Fully Initialized" ++ nl
                        ++ "Crash handler initialized" ++ nl)%string] in
  exists s w',
    run_test_suite e 40 ["soft_test"; "soft_test"] boot = Done (Suite s) w'
    /\ total (summary s) = 2
    /\ List.length (tests s) = 1.
Proof.
  intros e. do 2 eexists.
  split; [vm_compute; reflexivity|]. split; reflexivity.
Qed.

(** C4 as amended, on a request that names each known test once and one
    unknown test. *)
Lemma run_test_suite_total_witness :
  let e := bench (seconds 2)
                 [Data ("System Monitor - Fully Initialized" ++ nl
                        ++ "Crash handler initialized" ++ nl)%string] in
  exists s w',
    run_test_suite e 40 ["soft_test"; "bogus"; "null_pointer"] boot
    = Done (Suite s) w'
    /\ total (summary s) = 2
    /\ total (summary s) = List.length (tests s).
Proof.
  intros e.
  destruct (run_test_suite e 40 ["soft_test"; "bogus"; "null_pointer"] boot)
    as [[msg|s] w'| |] eqn:Hrun; try (vm_compute in Hrun; discriminate).
  destruct (run_test_suite_total e 40 _ boot s w' Hrun)
    as (Htotal & _ & _ & Hsame).
  exists s, w'. split; [reflexivity|].
  split; [rewrite Htotal; reflexivity|].
  apply Hsame. vm_compute.
  repeat constructor; simpl; intuition discriminate.
Defined.

(** C5: after a suite that ran, [passed + failed + errors = total]; and a
    round of the loop on a known name adds one to [total] and one to exactly
    one of [passed], [failed] and [errors], leaving the other two: [errors]
    when [result.get('error')] is truthy, else [passed] or [failed] by
    [success]. *)
Theorem run_test_suite_balanced
        (e : Env) (fuel : nat) (tests_to_run : list string) (w : World)
        (s : SuiteResults) (w' : World) :
  run_test_suite e fuel tests_to_run w = Done (Suite s) w' ->
  passed (summary s) + failed (summary s) + errors (summary s)
  = total (summary s)
  /\ (forall id s0 w0 s1 w1,
         known id = true ->
         suite_step e fuel tests_to_run id (s0, w0) = Done tt (s1, w1) ->
         exists result w2,
           run_crash_test e fuel id w0 = Done result w2
           /\ total (summary s1) = total (summary s0) + 1
           /\ ((passed (summary s1) = passed (summary s0) + 1
                /\ failed (summary s1) = failed (summary s0)
                /\ errors (summary s1) = errors (summary s0)
                /\ has_error result = false /\ success result = true)
               \/ (passed (summary s1) = passed (summary s0)
                   /\ failed (summary s1) = failed (summary s0) + 1
                   /\ errors (summary s1) = errors (summary s0)
                   /\ has_error result = false /\ success result = false)
               \/ (passed (summary s1) = passed (summary s0)
                   /\ failed (summary s1) = failed (summary s0)
                   /\ errors (summary s1) = errors (summary s0) + 1
                   /\ has_error result = true))).
Proof.
  intros Hrun. split.
  - destruct (run_test_suite_loop e fuel tests_to_run w s w' Hrun)
      as (s0 & w0 & s1 & w1 & _ & _ & Hbal & Hloop & _ & Hsum & _).
    destruct (suite_loop e fuel tests_to_run _ _ _ _ _ Hloop)
      as (_ & Hkeep & _).
    rewrite Hsum. exact (Hkeep Hbal).
  - intros id s0 w0 s1 w1 Hknown Hstep.
    destruct (suite_step_done e fuel _ _ _ _ _ _ Hstep)
      as [[Hunknown _]|(_ & result & w2 & Hres & _ & Hsum)];
      [congruence|].
    exists result, w2. split; [exact Hres|]. rewrite Hsum.
    apply tally_counts.
Qed.

(** C5 on a suite of a soft test that fails, an unknown name and a test that
    ends with an error. *)
Lemma run_test_suite_balanced_witness :
  let e := bench (seconds 2)
                 ([Data ("System Monitor - Fully Initialized" ++ nl
                         ++ "Crash handler initialized" ++ nl)%string]
                  ++ repeat Quiet 12 ++ [Fault "port closed"]) in
  exists s w',
    run_test_suite e 40 ["soft_test"; "bogus"; "null_pointer"] boot
    = Done (Suite s) w'
    /\ summary s = {| total := 2; passed := 0; failed := 1; errors := 1 |}
    /\ passed (summary s) + failed (summary s) + errors (summary s)
       = total (summary s).
Proof.
  intros e.
  destruct (run_test_suite e 40 ["soft_test"; "bogus"; "null_pointer"] boot)
    as [[msg|s] w'| |] eqn:Hrun; try (vm_compute in Hrun; discriminate).
  destruct (run_test_suite_balanced e 40 _ boot s w' Hrun) as (Hbal & _).
  exists s, w'. split; [reflexivity|]. split; [|exact Hbal].
  vm_compute in Hrun. now injection Hrun as <- _.
Defined.

(** ** Every test produces an outcome *)

Lemma rounds_needed_mono (t t' : Z) :
  (t <= t')%Z -> rounds_needed t <= rounds_needed t'.
Proof.
  intros Hle. unfold rounds_needed, millisecond.
  pose proof (Z.div_le_mono t t' 1000 ltac:(lia) Hle). lia.
Qed.

Lemma catalog_timeouts (id : string) (cfg : TestConfig) :
  dict_get id crash_tests = Some cfg -> (timeout cfg <= seconds 30)%Z.
Proof.
  unfold crash_tests. cbn [dict_get].
  repeat match goal with
         | |- context [String.eqb ?a id] => destruct (String.eqb a id)
         end;
    intros [= <-] || discriminate; vm_compute; discriminate.
Qed.

Section Outcomes.

Variable e : Env.
Variable fuel : nat.

(** The five ways are ways of [run_crash_test]. *)
Lemma test_run_is_run (id : string) (cfg : TestConfig)
      (w : World) (r : Result) (w' : World) :
  dict_get id crash_tests = Some cfg ->
  String.eqb id "soft_test" = false ->
  test_run e fuel id cfg w r w' ->
  run_crash_test e fuel id w = Done r w'.
Proof.
  intros Hcfg Hsoft Hway.
  unfold run_crash_test. rewrite Hcfg.
  unfold bind at 1, time_time.
  unfold bind at 1. unfold with_local, try_except, test_body.
  rewrite Hsoft.
  destruct Hway;
    unfold analysed, expected, bind, lift, update, get, ret, time_time;
    cbn [fst snd];
    repeat (match goal with
            | H : ?x = _ |- context [?x] => rewrite H
            end;
            cbn [fst snd negb reboot_detected crash_detected set_success
                 set_crash_detected set_crash_logs set_reboot_detected]);
    try destruct ready; reflexivity.
Qed.

Hypothesis clock : steady e.
Hypothesis enough : rounds_needed (seconds 30) <= fuel.

Lemma read_serial_outcome (timeout : Z) (w : World) :
  (timeout <= seconds 30)%Z ->
  (exists lines w', read_serial_with_timeout e fuel timeout w = Done lines w')
  \/ (exists msg w', read_serial_with_timeout e fuel timeout w = Raised msg w').
Proof.
  intros Hle.
  pose proof (read_serial_terminates e timeout fuel w clock) as Hterm.
  destruct (read_serial_with_timeout e fuel timeout w) as [l w'|m w'|];
    [left; eauto | right; eauto |].
  exfalso. apply Hterm; [|reflexivity].
  pose proof (rounds_needed_mono _ _ Hle). lia.
Qed.

(** With a steady clock and fuel for thirty seconds of polling,
    [run_crash_test] returns a result for every name: no exception leaves
    it. *)
Lemma run_crash_test_returns (id : string) (w : World) :
  exists r w', run_crash_test e fuel id w = Done r w'.
Proof.
  destruct (dict_get id crash_tests) as [cfg|] eqn:Hcfg.
  2: { unfold run_crash_test. rewrite Hcfg. unfold ret. eauto. }
  destruct (String.eqb id "soft_test") eqn:Hsoft.
  - apply String.eqb_eq in Hsoft. subst id.
    unfold run_crash_test. rewrite Hcfg.
    unfold bind at 1, time_time.
    unfold bind at 1. unfold with_local, try_except, test_body.
    rewrite String.eqb_refl.
    unfold trigger_soft_crash_test, bind, lift, update, ret, time_time.
    cbn [fst snd].
    destruct (read_serial_outcome (seconds 5) (tick e w))
      as [(l & w2 & ->)|(m & w2 & ->)]; [vm_compute; discriminate| |];
      cbn [fst snd]; eauto.
  - assert (Hway : exists r w', test_run e fuel id cfg w r w').
    { pose proof (catalog_timeouts id cfg Hcfg) as Hle.
      destruct (send_command_done e (command cfg) (tick e w))
        as ([|] & w1 & Hsend); [|eauto using SendFailed].
      destruct (read_serial_outcome (timeout cfg) w1 Hle)
        as [(lines & w2 & Hread)|(m & w2 & Hread)];
        [|eauto using ObservationRaised].
      destruct (parse_crash_logs_hits e lines w2) as (logs & w3 & Hparse & _).
      destruct (detect_reboot lines) eqn:Hreboot; [|eauto using NoReboot].
      unfold wait_for_system_ready in *.
      destruct (read_serial_outcome (seconds 30) w3 (Z.le_refl _))
        as [(l & w4 & Hwait)|(m & w4 & Hwait)].
      - do 2 eexists.
        eapply (Recovery e fuel id cfg w w1 lines w2 logs w3 _ w4); eauto.
        unfold wait_for_system_ready, bind. rewrite Hwait. reflexivity.
      - do 2 eexists.
        eapply (RecoveryRaised e fuel id cfg w w1 lines w2 logs w3 m w4);
          eauto.
        unfold wait_for_system_ready, bind. rewrite Hwait. reflexivity. }
    destruct Hway as (r & w' & Hway). exists r, w'.
    now apply (test_run_is_run id cfg).
Qed.

End Outcomes.

(** * Further properties of the harness *)

(** ** The port and the clock along a call *)

Section Along.

Variable e : Env.

Lemma tick_later (w : World) : steady e -> (now w <= now (tick e w))%Z.
Proof. intros Hs. simpl. pose proof (Hs (step w)). lia. Qed.

Lemma poll_once_raised_later lines buffer w msg w' :
  steady e ->
  poll_once e lines buffer w = Raised msg w' ->
  (now w <= now w')%Z /\ polls w <= polls w'.
Proof.
  intros Hs.
  unfold poll_once, bind, in_waiting, read_decoded, try_except, sleep, ret.
  destruct (feed e (polls w)) eqn:Hf; simpl; try rewrite Hf; simpl;
    try discriminate; intros [= <- <-]; simpl;
    pose proof (Hs (step w)); split; lia.
Qed.

(** With a steady clock the reader never leaves the clock behind where it
    found it. *)
Lemma read_serial_later timeout fuel w :
  steady e ->
  match read_serial_with_timeout e fuel timeout w with
  | Done _ w' | Raised _ w' => (now w <= now w')%Z
  | OutOfFuel => True
  end.
Proof.
  intros Hs.
  set (Inv := fun (_ : list string) (_ : string) w1 => (now w <= now w1)%Z).
  assert (Htick : forall lines buffer w1,
             Inv lines buffer w1 -> Inv lines buffer (tick e w1)).
  { intros l b w1 H. unfold Inv in *. pose proof (tick_later w1 Hs). lia. }
  assert (Hpoll : forall lines buffer w1 st w2,
             Inv lines buffer w1 -> poll_once e lines buffer w1 = Done st w2 ->
             Inv (fst st) (snd st) w2).
  { intros l b w1 st w2 H Hrun. unfold Inv in *.
    destruct (poll_once_done _ _ _ _ _ _ Hrun) as (_ & _ & _ & _ & Ht).
    specialize (Ht Hs). unfold millisecond in Ht. lia. }
  assert (Hstart : Inv [] EmptyString (tick e w))
    by (unfold Inv; now apply tick_later).
  unfold read_serial_with_timeout, bind at 1, time_time.
  destruct (read_loop e fuel timeout (now w) [] EmptyString (tick e w))
    as [out w'|msg w'|] eqn:Hrun; [| |exact I].
  - destruct (read_loop_rule e Inv timeout (now w) Htick Hpoll _ _ _ _ _ _
                Hstart Hrun) as (b & wg & Hi & -> & _).
    unfold Inv in Hi. pose proof (tick_later wg Hs). lia.
  - destruct (read_loop_raise_rule e Inv timeout (now w) Htick Hpoll
                _ _ _ _ _ _ Hstart Hrun) as (l1 & b1 & w1 & Hi & Hr).
    unfold Inv in Hi.
    destruct (poll_once_raised_later _ _ _ _ _ Hs Hr) as [Hl _]. lia.
Qed.

Lemma send_command_effect (cmd : string) (w : World) :
  exists w',
    send_command e cmd w = Done (wire e (writes w)) w'
    /\ writes w' = S (writes w)
    /\ sent w' = (if wire e (writes w)
                  then sent w ++ [(cmd ++ nl)%string]
                  else sent w)
    /\ polls w' = polls w
    /\ is_open w' = is_open w
    /\ (steady e -> (now w <= now w')%Z).
Proof.
  unfold send_command, try_except, bind, serial_write, ret, nl.
  destruct (wire e (writes w)); eexists; (split; [reflexivity|]); simpl;
    repeat split; intros Hs; pose proof (Hs (step w)); lia.
Qed.

Lemma scan_line_later (line : string) :
  steady e ->
  forall table logs w logs' w',
    foldM (log_match e line) table logs w = Done logs' w' ->
    (now w <= now w')%Z.
Proof.
  intros Hs.
  induction table as [|[pattern_name pattern] table IH];
    intros logs w logs' w'.
  - simpl. unfold ret. intros [= _ <-]. lia.
  - cbn [foldM]. unfold bind at 1. unfold log_match at 1.
    destruct (Re.search pattern line) as [groups|].
    + unfold bind, datetime_now, ret. intros Hrun.
      apply IH in Hrun. pose proof (tick_later w Hs). lia.
    + unfold ret. apply IH.
Qed.

Lemma parse_crash_logs_later (lines : list string) (w : World)
      (logs : list CrashLog) (w' : World) :
  steady e ->
  parse_crash_logs e lines w = Done logs w' ->
  (now w <= now w')%Z.
Proof.
  intros Hs. unfold parse_crash_logs. generalize (@nil CrashLog) as acc.
  revert w. induction lines as [|l lines IH]; intros w acc.
  - simpl. unfold ret. intros [= _ <-]. lia.
  - cbn [foldM]. unfold bind at 1.
    destruct (foldM (log_match e l) patterns acc w) as [acc' w1| |] eqn:Hline;
      try discriminate.
    intros Hrest. apply IH in Hrest.
    pose proof (scan_line_later l Hs _ _ _ _ _ Hline). lia.
Qed.

Lemma wait_for_system_ready_along timeout fuel w :
  match wait_for_system_ready e fuel timeout w with
  | Done _ w' | Raised _ w' =>
      same_link w w' /\ polls w <= polls w'
      /\ (steady e -> (now w <= now w')%Z)
  | OutOfFuel => True
  end.
Proof.
  unfold wait_for_system_ready, bind, ret.
  pose proof (read_serial_same_link e timeout fuel w) as Hl.
  destruct (read_serial_with_timeout e fuel timeout w) as [l w'|m w'|] eqn:Hr;
    [| |exact I]; destruct Hl as [Hl Hp]; repeat split; try apply Hl;
    try exact Hp; intros Hs;
    pose proof (read_serial_later timeout fuel w Hs) as Ht;
    now rewrite Hr in Ht.
Qed.

End Along.

(** ** What a test does to the port *)

Section TestEffects.

Variable e : Env.
Variable fuel : nat.

Lemma sends_command_known (id : string) (cfg : TestConfig) :
  dict_get id crash_tests = Some cfg ->
  sends_command id = negb (String.eqb id "soft_test")
  /\ trigger_line id = (command cfg ++ nl)%string.
Proof.
  intros Hcfg. unfold sends_command, known, dict_has, trigger_line.
  now rewrite Hcfg.
Qed.

(** A test leaves the port open or closed as it found it, makes one write
    attempt exactly when it is a test of the catalog other than the soft
    test, and then writes nothing but its trigger line. *)
Lemma run_crash_test_along (id : string) (w : World) (r : Result)
      (w' : World) :
  run_crash_test e fuel id w = Done r w' ->
  is_open w' = is_open w
  /\ polls w <= polls w'
  /\ writes w' = (if sends_command id then S (writes w) else writes w)
  /\ sent w' = (if sends_command id && wire e (writes w)
                then sent w ++ [trigger_line id]
                else sent w)
  /\ (steady e -> (now w <= now w')%Z).
Proof.
  intros Hrun.
  destruct (dict_get id crash_tests) as [cfg|] eqn:Hcfg.
  2: { unfold sends_command, known, dict_has. rewrite Hcfg. cbn [andb].
       unfold run_crash_test in Hrun. rewrite Hcfg in Hrun.
       unfold ret in Hrun. injection Hrun as _ <-.
       repeat split; auto; lia. }
  destruct (sends_command_known id cfg Hcfg) as [-> ->].
  destruct (String.eqb id "soft_test") eqn:Hsoft; cbn [negb andb].
  - apply String.eqb_eq in Hsoft. subst id.
    pose proof (read_serial_same_link e (seconds 5) fuel (tick e w)) as Hl.
    pose proof (read_serial_later e (seconds 5) fuel (tick e w)) as Ht.
    destruct (run_crash_test_soft_run e fuel w r w' Hrun)
      as [(lines & w2 & Hread & _ & ->)|(msg & w2 & Hread & _ & ->)];
      rewrite Hread in Hl, Ht; destruct Hl as [(Hs & Hw & Ho) Hp];
      simpl in *; repeat split; auto;
      intros Hst; specialize (Ht Hst);
      pose proof (Hst (step w)); pose proof (Hst (step w2)); lia.
  - pose proof (run_crash_test_run e fuel id cfg w r w' Hcfg Hsoft Hrun)
      as Hway.
    destruct (send_command_effect e (command cfg) (tick e w))
      as (v1 & Hsend' & Hw1 & Hs1 & Hp1 & Ho1 & Ht1).
    cbn [writes sent polls is_open tick] in Hw1, Hs1, Hp1, Ho1, Hsend'.
    destruct Hway as [w1 Hsend
                     |w1 msg w2 Hsend Hread
                     |w1 lines w2 logs w3 Hsend Hread Hparse Hreboot
                     |w1 lines w2 logs w3 ready w4
                         Hsend Hread Hparse Hreboot Hwait
                     |w1 lines w2 logs w3 msg w4
                         Hsend Hread Hparse Hreboot Hwait];
      rewrite Hsend in Hsend'; injection Hsend' as Hwire <-;
      rewrite <- Hwire in *.
    + repeat split; auto; try lia.
      intros Hst. specialize (Ht1 Hst). pose proof (tick_later e w Hst). lia.
    + pose proof (read_serial_same_link e (timeout cfg) fuel w1) as Hl.
      pose proof (read_serial_later e (timeout cfg) fuel w1) as Ht.
      rewrite Hread in Hl, Ht. destruct Hl as [(Hs & Hw & Ho) Hp].
      simpl. repeat split; try congruence; try lia.
      intros Hst. specialize (Ht1 Hst). specialize (Ht Hst).
      pose proof (tick_later e w Hst). pose proof (Hst (step w2)). lia.
    + pose proof (read_serial_same_link e (timeout cfg) fuel w1) as Hl.
      pose proof (read_serial_later e (timeout cfg) fuel w1) as Ht.
      rewrite Hread in Hl, Ht. destruct Hl as [(Hs & Hw & Ho) Hp].
      destruct (parse_crash_logs_hits e lines w2)
        as (lg & v3 & Hparse' & _ & (Hs3 & Hw3 & Ho3) & Hp3).
      rewrite Hparse in Hparse'. injection Hparse' as <- <-.
      simpl. repeat split; try congruence; try lia.
      intros Hst. specialize (Ht1 Hst). specialize (Ht Hst).
      pose proof (parse_crash_logs_later e _ _ _ _ Hst Hparse).
      pose proof (tick_later e w Hst). pose proof (Hst (step w3)). lia.
    + pose proof (read_serial_same_link e (timeout cfg) fuel w1) as Hl.
      pose proof (read_serial_later e (timeout cfg) fuel w1) as Ht.
      rewrite Hread in Hl, Ht. destruct Hl as [(Hs & Hw & Ho) Hp].
      destruct (parse_crash_logs_hits e lines w2)
        as (lg & v3 & Hparse' & _ & (Hs3 & Hw3 & Ho3) & Hp3).
      rewrite Hparse in Hparse'. injection Hparse' as <- <-.
      pose proof (wait_for_system_ready_along e (seconds 30) fuel w3) as Ha.
      rewrite Hwait in Ha. destruct Ha as ((Hs4 & Hw4 & Ho4) & Hp4 & Ht4).
      simpl. repeat split; try congruence; try lia.
      intros Hst. specialize (Ht1 Hst). specialize (Ht Hst).
      specialize (Ht4 Hst).
      pose proof (parse_crash_logs_later e _ _ _ _ Hst Hparse).
      pose proof (tick_later e w Hst). pose proof (Hst (step w4)). lia.
    + pose proof (read_serial_same_link e (timeout cfg) fuel w1) as Hl.
      pose proof (read_serial_later e (timeout cfg) fuel w1) as Ht.
      rewrite Hread in Hl, Ht. destruct Hl as [(Hs & Hw & Ho) Hp].
      destruct (parse_crash_logs_hits e lines w2)
        as (lg & v3 & Hparse' & _ & (Hs3 & Hw3 & Ho3) & Hp3).
      rewrite Hparse in Hparse'. injection Hparse' as <- <-.
      pose proof (wait_for_system_ready_along e (seconds 30) fuel w3) as Ha.
      rewrite Hwait in Ha. destruct Ha as ((Hs4 & Hw4 & Ho4) & Hp4 & Ht4).
      simpl. repeat split; try congruence; try lia.
      intros Hst. specialize (Ht1 Hst). specialize (Ht Hst).
      specialize (Ht4 Hst).
      pose proof (parse_crash_logs_later e _ _ _ _ Hst Hparse).
      pose proof (tick_later e w Hst). pose proof (Hst (step w4)). lia.
Qed.

End TestEffects.

(** ** The suite, step by step *)

Section SuiteSteps.

Variable e : Env.
Variable fuel : nat.

Lemma run_crash_test_name (id : string) (w : World) (r : Result)
      (w' : World) :
  known id = true ->
  run_crash_test e fuel id w = Done r w' ->
  test_name r = id.
Proof.
  unfold known, dict_has.
  destruct (dict_get id crash_tests) as [cfg|] eqn:Hcfg; [|discriminate].
  intros _ Hrun.
  destruct (String.eqb id "soft_test") eqn:Hsoft.
  - apply String.eqb_eq in Hsoft. subst id.
    destruct (run_crash_test_soft_run e fuel w r w' Hrun)
      as [(lines & w2 & _ & -> & _)|(msg & w2 & _ & -> & _)]; reflexivity.
  - destruct (run_crash_test_run e fuel id cfg w r w' Hcfg Hsoft Hrun);
      try destruct ready; reflexivity.
Qed.

(** No exception leaves [run_crash_test]. *)
Lemma run_crash_test_no_raise (id : string) (w : World) (msg : string)
      (w' : World) :
  run_crash_test e fuel id w <> Raised msg w'.
Proof.
  unfold run_crash_test.
  destruct (dict_get id crash_tests) as [cfg|]; [|discriminate].
  unfold bind at 1, time_time. unfold bind at 1, with_local, try_except.
  destruct (test_body e fuel id cfg (now w) (new_result id, tick e w))
    as [b [r1 w1]|m [r1 w1]|]; cbn [fst snd].
  - destruct b; unfold ret, bind, time_time; discriminate.
  - unfold bind, update, ret, time_time. cbn [fst snd]. discriminate.
  - discriminate.
Qed.

(** One round of the loop, with what it does to the world. *)
Lemma suite_step_full (tests_to_run : list string) (id : string)
      (s : SuiteResults) (w : World) (s' : SuiteResults) (w' : World) :
  suite_step e fuel tests_to_run id (s, w) = Done tt (s', w') ->
  (known id = false /\ s' = s /\ w' = w)
  \/ (known id = true
      /\ exists result w1,
          run_crash_test e fuel id w = Done result w1
          /\ s' = set_summary (tally result (add_total (summary s)))
                    (set_tests (dict_set id result (tests s)) s)
          /\ (if String.eqb id (last tests_to_run EmptyString)
              then w' = w1
              else sleep e (seconds 5) w1 = Done tt w')).
Proof.
  unfold suite_step, known.
  destruct (dict_has id crash_tests); [|unfold ret; intros [= <- <-]; auto].
  unfold bind at 1. unfold lift at 1. cbn [fst snd].
  destruct (run_crash_test e fuel id w) as [result w1| |] eqn:Hrun;
    try discriminate.
  repeat (unfold bind at 1; unfold update at 1; cbn [fst snd]).
  intros Hrest. right. split; [reflexivity|]. exists result, w1.
  split; [reflexivity|].
  destruct (id =? last tests_to_run EmptyString)%string; cbn [negb] in Hrest.
  - unfold ret in Hrest. injection Hrest as <- <-. split; reflexivity.
  - unfold lift in Hrest. cbn [fst snd] in Hrest.
    destruct (sleep e (seconds 5) w1) as [[] w2| |] eqn:Hsleep;
      try discriminate.
    cbn [fst] in Hrest. injection Hrest as <- <-. split; reflexivity.
Qed.

Lemma sleep_along (d : Z) (w w' : World) :
  sleep e d w = Done tt w' ->
  same_link w w' /\ polls w' = polls w
  /\ (steady e -> (now w + d <= now w')%Z).
Proof.
  unfold sleep, same_link. intros [= <-]. simpl. repeat split.
  intros Hs. pose proof (Hs (step w)). lia.
Qed.

(** The loop writes the trigger lines of the tests that send one, in the
    order requested, makes no other write attempt, leaves the port open or
    closed as it was, and keeps the two time stamps of the suite. *)
Lemma suite_loop_along (tests_to_run : list string) :
  forall names s w s' w',
    for_each names (suite_step e fuel tests_to_run) (s, w) = Done tt (s', w') ->
    is_open w' = is_open w
    /\ writes w' = writes w + List.length (filter sends_command names)
    /\ (wired e ->
        sent w' = sent w ++ map trigger_line (filter sends_command names))
    /\ (steady e -> (now w <= now w')%Z)
    /\ start_time s' = start_time s
    /\ end_time s' = end_time s
    /\ (forall k r,
           In (k, r) (tests s') ->
           In (k, r) (tests s)
           \/ (In k names /\ known k = true /\ test_name r = k)).
Proof.
  induction names as [|id names IH]; intros s w s' w'.
  - simpl. unfold ret. intros [= <- <-]. simpl. rewrite app_nil_r.
    repeat split; auto; try lia.
  - cbn [for_each]. unfold bind at 1.
    destruct (suite_step e fuel tests_to_run id (s, w))
      as [[] [s1 w1]| |] eqn:Hstep; try discriminate.
    intros Hrest.
    destruct (IH _ _ _ _ Hrest) as (Ho & Hw & Hs & Ht & Hst & Hen & Hk).
    destruct (suite_step_full _ _ _ _ _ _ Hstep)
      as [(Hunknown & -> & ->)|(Hknown & result & w2 & Hrun & -> & Hw1)].
    + assert (Hno : sends_command id = false)
        by (unfold sends_command; now rewrite Hunknown).
      cbn [filter]. rewrite Hno.
      repeat split; auto.
      intros k r Hin. destruct (Hk k r Hin) as [H|(H1 & H2 & H3)];
        [now left | right; repeat split; auto; now right].
    + destruct (run_crash_test_along e fuel id w result w2 Hrun)
        as (Ho2 & _ & Hw2 & Hs2 & Ht2).
      pose proof (run_crash_test_name id w result w2 Hknown Hrun) as Hname.
      assert (Hlink : same_link w2 w1 /\ (steady e -> (now w2 <= now w1)%Z)).
      { destruct (id =? last tests_to_run EmptyString)%string.
        - subst w1. split; [unfold same_link; auto | intros; lia].
        - destruct (sleep_along _ _ _ Hw1) as (Hl & _ & Hlt).
          split; [exact Hl|]. intros Hsd. specialize (Hlt Hsd).
          unfold seconds in Hlt. lia. }
      destruct Hlink as [(Hs1 & Hww1 & Ho1) Ht1].
      cbn [start_time end_time set_summary set_tests tests] in *.
      cbn [filter].
      split; [congruence|]. split.
      { rewrite Hw, Hww1, Hw2.
        destruct (sends_command id); simpl; lia. }
      split.
      { intros Hwired. rewrite (Hs Hwired), Hs1, Hs2, (Hwired (writes w)).
        rewrite andb_true_r.
        destruct (sends_command id); simpl;
          [now rewrite <- app_assoc | reflexivity]. }
      split.
      { intros Hsd. specialize (Ht Hsd). specialize (Ht1 Hsd).
        specialize (Ht2 Hsd). lia. }
      split; [exact Hst|]. split; [exact Hen|].
      intros k r Hin. destruct (Hk k r Hin) as [H|(H1 & H2 & H3)].
      * assert (Hset : forall (d : list (string * Result)),
                   In (k, r) (dict_set id result d) ->
                   In (k, r) d \/ (k = id /\ r = result)).
        { induction d as [|[k0 v0] d IHd]; simpl.
          - intros [[= <- <-]|[]]. auto.
          - destruct (String.eqb_spec k0 id) as [->|Hne]; simpl.
            + intros [[= <- <-]|Hd]; auto.
            + intros [Heq|Hd]; auto. destruct (IHd Hd); auto. }
        destruct (Hset _ H) as [Hold|[-> ->]]; [now left|].
        right. repeat split; auto. now left.
      * right. repeat split; auto. now right.
Qed.

(** A suite that ran, phase by phase. *)
Lemma run_test_suite_run (tests_to_run : list string) (w : World)
      (s : SuiteResults) (w' : World) :
  run_test_suite e fuel tests_to_run w = Done (Suite s) w' ->
  exists wc wr s1 wl,
    connect e w = Done true wc
    /\ wait_for_system_ready e fuel (seconds 60) wc = Done true wr
    /\ for_each tests_to_run (suite_step e fuel tests_to_run)
                (new_suite (now wr), tick e wr)
       = Done tt (s1, wl)
    /\ s = set_end_time (Some (now wl)) s1
    /\ disconnect e (tick e wl) = Done tt w'.
Proof.
  unfold run_test_suite. unfold bind at 1.
  destruct (connect e w) as [connected wc| |] eqn:Hc; try discriminate.
  destruct connected; cbn [negb]; [|unfold ret; discriminate].
  unfold bind at 1.
  destruct (wait_for_system_ready e fuel (seconds 60) wc)
    as [ready wr| |] eqn:Hr; try discriminate.
  destruct ready; cbn [negb].
  2: { unfold bind, ret. destruct (disconnect e wr); discriminate. }
  unfold bind at 1, datetime_now. unfold bind at 1.
  unfold with_local, try_finally. fold (new_suite (now wr)). intros Hrun.
  destruct (for_each tests_to_run (suite_step e fuel tests_to_run)
                     (new_suite (now wr), tick e wr))
    as [[] [s1 wl]|msg [s1 wl]|] eqn:Hloop;
    unfold bind, lift, update, datetime_now, ret in Hrun;
    cbn [fst snd] in Hrun;
    try (destruct (disconnect e (tick e wl)) as [[] w3|msg' w3|] eqn:Hd);
    try discriminate.
  cbn [fst snd] in Hrun. inversion Hrun; subst.
  exists wc, wr, s1, wl. repeat split; assumption.
Qed.

End SuiteSteps.

(** ** Sending a command *)

(** X1: [send_command] never raises.  It returns whether the write and the
    flush went through; when they did, the text written is the command
    followed by one newline, and when they did not, nothing is recorded as
    written.  It makes one write attempt, polls nothing and leaves the port
    open or closed as it was. *)
Theorem send_command_reports_the_write
        (e : Env) (cmd : string) (w : World) :
  exists w',
    send_command e cmd w = Done (wire e (writes w)) w'
    /\ writes w' = S (writes w)
    /\ sent w' = (if wire e (writes w)
                  then sent w ++ [(cmd ++ nl)%string]
                  else sent w)
    /\ polls w' = polls w
    /\ is_open w' = is_open w.
Proof.
  destruct (send_command_effect e cmd w) as (w' & H1 & H2 & H3 & H4 & H5 & _).
  exists w'. auto.
Qed.

(** ** Tests that do not run *)

(** X2: a name that is not in the catalog is reported, not run:
    [run_crash_test] returns at once, with [success] false and the error
    ["Unknown test: "] followed by the name, and the world as it was (no
    clock reading, no write, no poll); and a round of the suite on such a
    name changes neither the suite result nor the world. *)
Theorem unknown_test_is_reported_not_run
        (e : Env) (fuel : nat) (id : string) (w : World) :
  known id = false ->
  (exists r,
      run_crash_test e fuel id w = Done r w
      /\ success r = false
      /\ error r = Some ("Unknown test: " ++ id)%string)
  /\ (forall tests_to_run s,
         suite_step e fuel tests_to_run id (s, w) = Done tt (s, w)).
Proof.
  intros Hunknown. split.
  - unfold known, dict_has in Hunknown. unfold run_crash_test.
    destruct (dict_get id crash_tests); [discriminate|].
    exists (unknown_result id). repeat split.
  - intros ts s. unfold suite_step. unfold known in Hunknown.
    now rewrite Hunknown.
Qed.

(** X2 on the name ["bogus"]. *)
Lemma unknown_test_is_reported_not_run_witness :
  exists r,
    run_crash_test (bench (seconds 2) []) 40 "bogus" boot = Done r boot
    /\ success r = false
    /\ error r = Some "Unknown test: bogus".
Proof.
  destruct (unknown_test_is_reported_not_run
              (bench (seconds 2) []) 40 "bogus" boot eq_refl)
    as [(r & Hrun & Hs & He) _].
  exists r. repeat split; assumption.
Defined.

(** X3: when the trigger command of a test cannot be written, the test ends
    there: the error is ["Failed to send command"], [success] is false,
    nothing was detected, [duration] stays 0, and the port was not polled. *)
Theorem run_crash_test_send_failure
        (e : Env) (fuel : nat) (id : string) (cfg : TestConfig) (w : World) :
  dict_get id crash_tests = Some cfg ->
  id <> "soft_test" ->
  wire e (writes w) = false ->
  exists r w',
    run_crash_test e fuel id w = Done r w'
    /\ error r = Some "Failed to send command"
    /\ success r = false
    /\ reboot_detected r = false
    /\ crash_logs r = []
    /\ duration r = 0%Z
    /\ polls w' = polls w
    /\ sent w' = sent w.
Proof.
  intros Hcfg Hsoft Hwire. apply String.eqb_neq in Hsoft.
  destruct (send_command_effect e (command cfg) (tick e w))
    as (w1 & Hsend & _ & Hs & Hp & _).
  cbn [writes sent polls tick] in Hsend, Hs, Hp. rewrite Hwire in Hsend, Hs.
  exists (set_error (Some "Failed to send command") (new_result id)), w1.
  split; [|repeat split; assumption].
  apply (test_run_is_run e fuel id cfg); try assumption.
  now apply SendFailed.
Qed.

(** X3 on [null_pointer] with a port that refuses every write. *)
Lemma run_crash_test_send_failure_witness :
  exists r w',
    run_crash_test (dead_wire (seconds 2) []) 40 "null_pointer" boot
    = Done r w'
    /\ error r = Some "Failed to send command"
    /\ duration r = 0%Z
    /\ polls w' = 0.
Proof.
  destruct (dict_get "null_pointer" crash_tests) as [cfg|] eqn:Hcfg;
    [|vm_compute in Hcfg; discriminate].
  assert (Hsoft : "null_pointer" <> "soft_test") by discriminate.
  destruct (run_crash_test_send_failure
              (dead_wire (seconds 2) []) 40 "null_pointer" cfg boot
              Hcfg Hsoft eq_refl)
    as (r & w' & Hrun & He & _ & _ & _ & Hd & Hp & _).
  exists r, w'. repeat split; assumption.
Defined.

(** X4: a test that returns leaves the port open or closed as it found it.
    A test of the catalog other than the soft test makes exactly one write
    attempt, and what it writes, when the write goes through, is its
    trigger command and a newline; the soft test and an unknown name make
    no write attempt and write nothing. *)
Theorem run_crash_test_writes_its_trigger_once
        (e : Env) (fuel : nat) (id : string) (w : World) (r : Result)
        (w' : World) :
  run_crash_test e fuel id w = Done r w' ->
  is_open w' = is_open w
  /\ writes w' = (if sends_command id then S (writes w) else writes w)
  /\ sent w' = (if sends_command id && wire e (writes w)
                then sent w ++ [trigger_line id]
                else sent w).
Proof.
  intros Hrun.
  destruct (run_crash_test_along e fuel id w r w' Hrun)
    as (Ho & _ & Hw & Hs & _).
  auto.
Qed.

(** X4 on [watchdog] at a silent port. *)
Lemma run_crash_test_writes_its_trigger_once_witness :
  exists r w',
    run_crash_test (bench (seconds 2) []) 40 "watchdog" boot = Done r w'
    /\ writes w' = 1
    /\ sent w' = [("TEST_CRASH_WATCHDOG" ++ nl)%string].
Proof.
  destruct (run_crash_test (bench (seconds 2) []) 40 "watchdog" boot)
    as [r w'| |] eqn:Hrun; try (vm_compute in Hrun; discriminate).
  destruct (run_crash_test_writes_its_trigger_once
              (bench (seconds 2) []) 40 "watchdog" boot r w' Hrun)
    as (_ & Hw & Hs).
  exists r, w'. split; [reflexivity|]. split; [exact Hw | exact Hs].
Defined.

(** X5: [run_crash_test] always produces an outcome.  No exception leaves
    it, whatever the port does; and on a clock that is never set back it
    returns a result for every name, known or not, within the rounds of
    polling that thirty seconds need. *)
Theorem run_crash_test_always_returns
        (e : Env) (fuel : nat) (id : string) (w : World) :
  steady e ->
  rounds_needed (seconds 30) <= fuel ->
  (exists r w', run_crash_test e fuel id w = Done r w')
  /\ (forall rounds msg w', run_crash_test e rounds id w <> Raised msg w').
Proof.
  intros Hs Hfuel. split.
  - now apply run_crash_test_returns.
  - intros rounds msg w'. apply run_crash_test_no_raise.
Qed.

(** X5 on [heap_corruption] at a port whose [in_waiting] raises at once. *)
Lemma run_crash_test_always_returns_witness :
  exists r w',
    run_crash_test (bench (seconds 2) [Fault "port closed"])
                   (rounds_needed (seconds 30)) "heap_corruption" boot
    = Done r w'.
Proof.
  assert (Hs : steady (bench (seconds 2) [Fault "port closed"]))
    by (intros k; simpl; lia).
  exact (proj1 (run_crash_test_always_returns
                  (bench (seconds 2) [Fault "port closed"])
                  (rounds_needed (seconds 30)) "heap_corruption" boot
                  Hs (le_n _))).
Defined.

(** ** The suite and the port *)

Section SuitePort.

Variable e : Env.
Variable fuel : nat.

Lemma connect_effect (w : World) :
  exists wc,
    connect e w = Done (dial e && clear_in e && clear_out e) wc
    /\ writes wc = writes w /\ sent wc = sent w /\ polls wc = polls w
    /\ is_open wc = (dial e || is_open w)
    /\ (steady e -> (now w <= now wc)%Z).
Proof.
  unfold connect, try_except, bind, serial_open, reset_buffer, set_open, ret.
  destruct (dial e), (clear_in e), (clear_out e);
    eexists; (split; [reflexivity|]); cbn;
    repeat split; intros Hs;
    pose proof (Hs (step w)); pose proof (Hs (S (step w)));
    pose proof (Hs (S (S (step w)))); lia.
Qed.

Lemma disconnect_effect (w : World) :
  match disconnect e w with
  | Done _ w' =>
      is_open w' = false
      /\ writes w' = writes w /\ sent w' = sent w /\ polls w' = polls w
      /\ (steady e -> (now w <= now w')%Z)
  | Raised msg w' =>
      hang_up e = Some msg
      /\ is_open w = true /\ is_open w' = true
      /\ writes w' = writes w /\ sent w' = sent w /\ polls w' = polls w
  | OutOfFuel => False
  end.
Proof.
  unfold disconnect, serial_close, set_open.
  destruct (is_open w) eqn:Ho; [destruct (hang_up e)|]; cbn;
    repeat split; auto; intros Hs; pose proof (Hs (step w)); lia.
Qed.

Lemma suite_loop_no_raise (tests_to_run : list string) :
  forall names s w msg sw,
    for_each names (suite_step e fuel tests_to_run) (s, w) <> Raised msg sw.
Proof.
  induction names as [|id names IH]; intros s w msg sw.
  - simpl. unfold ret. discriminate.
  - cbn [for_each]. unfold bind at 1.
    destruct (suite_step e fuel tests_to_run id (s, w))
      as [[] [s1 w1]|m [s1 w1]|] eqn:Hstep.
    + apply IH.
    + exfalso. revert Hstep. unfold suite_step.
      destruct (dict_has id crash_tests); [|unfold ret; discriminate].
      unfold bind at 1. unfold lift at 1. cbn [fst snd].
      destruct (run_crash_test e fuel id w) as [r w2|m2 w2|] eqn:Hrun;
        [| now apply run_crash_test_no_raise in Hrun | discriminate].
      repeat (unfold bind at 1; unfold update at 1; cbn [fst snd]).
      destruct (negb (id =? last tests_to_run EmptyString)%string);
        unfold lift, sleep, ret; cbn [fst snd]; discriminate.
    + discriminate.
Qed.

End SuitePort.

(** X6: [run_test_suite] returns a suite-level error in three cases only,
    and in each of them no test ran: nothing was written to the port.
    When [serial.Serial] cannot open the port, the error is
    ["Connection failed"] and the port is as it was.  When the port opened
    but one of the two buffer resets raised, [connect] catches that in the
    same [try]: the error is again ["Connection failed"], and the port is
    left open.  When the connection was made but readiness was not confirmed
    in the sixty seconds of the start-up wait, the error is
    ["System not ready"] and the port has been closed again. *)
Theorem run_test_suite_aborts_before_any_test
        (e : Env) (fuel : nat) (tests_to_run : list string) (w : World)
        (msg : string) (w' : World) :
  run_test_suite e fuel tests_to_run w = Done (SuiteError msg) w' ->
  writes w' = writes w
  /\ sent w' = sent w
  /\ ((msg = "Connection failed"
       /\ connect e w = Done false w'
       /\ polls w' = polls w
       /\ ((dial e = false /\ is_open w' = is_open w)
           \/ (dial e = true /\ clear_in e && clear_out e = false
               /\ is_open w' = true)))
      \/ (msg = "System not ready"
          /\ is_open w' = false
          /\ exists wc wr,
              connect e w = Done true wc
              /\ wait_for_system_ready e fuel (seconds 60) wc
                 = Done false wr
              /\ disconnect e wr = Done tt w')).
Proof.
  unfold run_test_suite. unfold bind at 1.
  destruct (connect_effect e w)
    as (wc & Hc & Hcw & Hcs & Hcp & Hco & _).
  rewrite Hc.
  destruct (dial e && clear_in e && clear_out e) eqn:Hup; cbn [negb].
  2: { unfold ret. intros [= <- <-].
       split; [exact Hcw|]. split; [exact Hcs|]. left.
       split; [reflexivity|]. split; [reflexivity|]. split; [exact Hcp|].
       destruct (dial e); cbn [andb orb] in *.
       - right. auto.
       - left. auto. }
  unfold bind at 1.
  pose proof (wait_for_system_ready_along e (seconds 60) fuel wc) as Ha.
  destruct (wait_for_system_ready e fuel (seconds 60) wc)
    as [ready wr| |] eqn:Hr; try discriminate.
  destruct Ha as ((Hs & Hw & _) & _).
  destruct ready; cbn [negb].
  - unfold bind at 1, datetime_now. unfold bind at 1.
    unfold with_local, try_finally.
    destruct (for_each tests_to_run (suite_step e fuel tests_to_run) _)
      as [[] [s1 wl]|m [s1 wl]|]; try discriminate.
    + unfold bind, lift, update, datetime_now, ret. cbn [fst snd].
      destruct (disconnect e (tick e wl)); discriminate.
    + unfold bind, lift, update, datetime_now, ret. cbn [fst snd].
      destruct (disconnect e (tick e wl)); discriminate.
  - unfold bind, ret.
    pose proof (disconnect_effect e wr) as Hd.
    destruct (disconnect e wr) as [[] wd|m wd|] eqn:Hdis; try discriminate.
    destruct Hd as (Ho & Hdw & Hds & _).
    intros [= <- <-].
    split; [congruence|]. split; [congruence|].
    right. repeat split; auto. exists wc, wr. auto.
Qed.

(** X6 on a port that opens but whose output buffer cannot be reset: the
    suite reports that the connection failed, and the port stays open. *)
Lemma run_test_suite_aborts_before_any_test_witness :
  exists w',
    run_test_suite (clogged_port (seconds 2)) 40 ["null_pointer"] boot
    = Done (SuiteError "Connection failed") w'
    /\ is_open w' = true
    /\ writes w' = 0.
Proof.
  destruct (run_test_suite (clogged_port (seconds 2)) 40 ["null_pointer"]
                           boot)
    as [[msg|s] w'| |] eqn:Hrun; try (vm_compute in Hrun; discriminate).
  destruct (run_test_suite_aborts_before_any_test _ _ _ _ _ _ Hrun)
    as (Hw & _ & [(-> & _ & _ & [(Hd & _)|(_ & _ & Ho)])|(Hm & _)]).
  - discriminate Hd.
  - exists w'. split; [reflexivity|]. split; [exact Ho | exact Hw].
  - exfalso. vm_compute in Hrun. rewrite Hm in Hrun. discriminate Hrun.
Defined.

(** X7: a suite that ran leaves the port closed and has its end time set;
    on a clock that is never set back the end is not before the start. *)
Theorem run_test_suite_closes_the_port
        (e : Env) (fuel : nat) (tests_to_run : list string) (w : World)
        (s : SuiteResults) (w' : World) :
  run_test_suite e fuel tests_to_run w = Done (Suite s) w' ->
  is_open w' = false
  /\ exists ended,
      end_time s = Some ended
      /\ (steady e -> (start_time s <= ended)%Z).
Proof.
  intros Hrun.
  destruct (run_test_suite_run e fuel tests_to_run w s w' Hrun)
    as (wc & wr & s1 & wl & _ & _ & Hloop & -> & Hd).
  pose proof (disconnect_effect e (tick e wl)) as Hd'.
  rewrite Hd in Hd'. destruct Hd' as (Ho & _).
  split; [exact Ho|]. exists (now wl). split; [reflexivity|].
  intros Hs.
  destruct (suite_loop_along e fuel tests_to_run _ _ _ _ _ Hloop)
    as (_ & _ & _ & Ht & Hst & _).
  cbn [start_time set_end_time]. rewrite Hst. cbn [start_time new_suite].
  specialize (Ht Hs). pose proof (tick_later e wr Hs). lia.
Qed.

(** X8: an exception leaves [run_test_suite] from two places only, both
    outside the tests, and it leaves with the port still open.  One is the
    start-up wait for readiness, made outside any [try]: [in_waiting]
    raised there.  The other is [close()], which [disconnect] does not
    guard: it raised either after a start-up wait that did not confirm
    readiness, or in the [finally] after the tests had all run.  No
    exception raised by a test escapes. *)
Theorem run_test_suite_raises_only_outside_the_tests
        (e : Env) (fuel : nat) (tests_to_run : list string) (w : World)
        (msg : string) (w' : World) :
  run_test_suite e fuel tests_to_run w = Raised msg w' ->
  is_open w' = true
  /\ exists wc,
      connect e w = Done true wc
      /\ ((wait_for_system_ready e fuel (seconds 60) wc = Raised msg w'
           /\ exists k, polls w <= k /\ feed e k = Fault msg)
          \/ (hang_up e = Some msg
              /\ exists wr,
                  wait_for_system_ready e fuel (seconds 60) wc
                  = Done false wr
                  /\ disconnect e wr = Raised msg w')
          \/ (hang_up e = Some msg
              /\ exists wr s1 wl,
                  wait_for_system_ready e fuel (seconds 60) wc
                  = Done true wr
                  /\ for_each tests_to_run (suite_step e fuel tests_to_run)
                              (new_suite (now wr), tick e wr)
                     = Done tt (s1, wl)
                  /\ disconnect e (tick e wl) = Raised msg w')).
Proof.
  unfold run_test_suite. unfold bind at 1.
  destruct (connect_effect e w)
    as (wc & Hc & _ & _ & Hcp & Hco & _).
  rewrite Hc.
  destruct (dial e && clear_in e && clear_out e) eqn:Hup; cbn [negb];
    [|unfold ret; discriminate].
  assert (Hopen : is_open wc = true).
  { rewrite Hco. destruct (dial e); [reflexivity | discriminate Hup]. }
  unfold bind at 1.
  pose proof (wait_for_system_ready_along e (seconds 60) fuel wc) as Ha.
  destruct (wait_for_system_ready e fuel (seconds 60) wc)
    as [ready wr|m wr|] eqn:Hr; try discriminate.
  - destruct ready; cbn [negb].
    + unfold bind at 1, datetime_now. unfold bind at 1.
      unfold with_local, try_finally. fold (new_suite (now wr)).
      destruct (for_each tests_to_run (suite_step e fuel tests_to_run)
                         (new_suite (now wr), tick e wr))
        as [[] [s1 wl]|m [s1 wl]|] eqn:Hloop; try discriminate.
      * unfold bind, lift, update, datetime_now, ret. cbn [fst snd].
        pose proof (disconnect_effect e (tick e wl)) as Hd.
        destruct (disconnect e (tick e wl)) as [[] wd|m wd|] eqn:Hdis;
          try discriminate.
        cbn [fst snd]. intros [= <- <-].
        destruct Hd as (Hh & _ & Ho & _).
        split; [exact Ho|]. exists wc. split; [reflexivity|].
        right. right. split; [exact Hh|]. exists wr, s1, wl. auto.
      * now apply suite_loop_no_raise in Hloop.
    + unfold bind, ret.
      pose proof (disconnect_effect e wr) as Hd.
      destruct (disconnect e wr) as [[] wd|m wd|] eqn:Hdis;
        try discriminate.
      intros [= <- <-]. destruct Hd as (Hh & _ & Ho & _).
      split; [exact Ho|]. exists wc. split; [reflexivity|].
      right. left. split; [exact Hh|]. exists wr. auto.
  - intros [= <- <-]. destruct Ha as ((_ & _ & Ho) & _).
    split; [now rewrite Ho|]. exists wc. split; [reflexivity|].
    left. split; [exact Hr|].
    revert Hr. unfold wait_for_system_ready, bind.
    destruct (read_serial_with_timeout e fuel (seconds 60) wc)
      as [l v|m' v|] eqn:Hread; try discriminate.
    intros [= <- <-].
    destruct (read_serial_raised e _ _ _ _ _ Hread) as (k & Hk & Hf).
    exists k. split; [lia | exact Hf].
Qed.

(** X8 on a port that cannot be closed: the soft test runs, and the suite
    is lost to the exception of [close()] in the [finally]. *)
Lemma run_test_suite_raises_only_outside_the_tests_witness :
  let e := stuck_port (seconds 2)
                      [Data ("System Monitor - Fully Initialized" ++ nl
                             ++ "Crash handler initialized" ++ nl)%string] in
  exists w',
    run_test_suite e 40 ["soft_test"] boot = Raised "close failed" w'
    /\ is_open w' = true.
Proof.
  intros e.
  destruct (run_test_suite e 40 ["soft_test"] boot)
    as [r w'|msg w'|] eqn:Hrun; try (vm_compute in Hrun; discriminate).
  destruct (run_test_suite_raises_only_outside_the_tests _ _ _ _ _ _ Hrun)
    as (Ho & _).
  exists w'. split; [|exact Ho].
  vm_compute in Hrun. now injection Hrun as <- <-.
Defined.

(** X7 on a suite of the soft test. *)
Lemma run_test_suite_closes_the_port_witness :
  let e := bench (seconds 2)
                 [Data ("System Monitor - Fully Initialized" ++ nl
                        ++ "Crash handler initialized" ++ nl)%string] in
  exists s w',
    run_test_suite e 40 ["soft_test"] boot = Done (Suite s) w'
    /\ is_open w' = false
    /\ end_time s <> None.
Proof.
  intros e.
  destruct (run_test_suite e 40 ["soft_test"] boot)
    as [[msg|s] w'| |] eqn:Hrun; try (vm_compute in Hrun; discriminate).
  destruct (run_test_suite_closes_the_port e 40 _ boot s w' Hrun)
    as (Ho & ended & He & _).
  exists s, w'. split; [reflexivity|]. split; [exact Ho|].
  rewrite He. discriminate.
Defined.

(** ** The outcomes of a suite *)

(** X9: the mapping of outcomes of a suite that ran has one entry for each
    requested name that is in the catalog and no other; no name is entered
    twice, a name that is not in the catalog is never entered, and the
    outcome stored under a name is an outcome of that test (its
    [test_name] is the key). *)
Theorem run_test_suite_outcomes_by_name
        (e : Env) (fuel : nat) (tests_to_run : list string) (w : World)
        (s : SuiteResults) (w' : World) :
  run_test_suite e fuel tests_to_run w = Done (Suite s) w' ->
  NoDup (map fst (tests s))
  /\ (forall k,
         In k (map fst (tests s)) <-> In k tests_to_run /\ known k = true)
  /\ (forall k r, In (k, r) (tests s) -> test_name r = k).
Proof.
  intros Hrun.
  destruct (run_test_suite_run e fuel tests_to_run w s w' Hrun)
    as (wc & wr & s1 & wl & _ & _ & Hloop & -> & _).
  destruct (suite_loop e fuel tests_to_run _ _ _ _ _ Hloop)
    as (_ & _ & Hnd & Hkeys).
  destruct (suite_loop_along e fuel tests_to_run _ _ _ _ _ Hloop)
    as (_ & _ & _ & _ & _ & _ & Hname).
  cbn [tests set_end_time new_suite map] in *.
  split; [apply Hnd; constructor|]. split.
  - intros k. rewrite Hkeys, filter_In. simpl. tauto.
  - intros k r Hin. destruct (Hname k r Hin) as [[]|(_ & _ & H)]. exact H.
Qed.

(** X9 on a request with a repeated name and an unknown one. *)
Lemma run_test_suite_outcomes_by_name_witness :
  let e := bench (seconds 2)
                 [Data ("System Monitor - Fully Initialized" ++ nl
                        ++ "Crash handler initialized" ++ nl)%string] in
  exists s w',
    run_test_suite e 40 ["soft_test"; "bogus"; "soft_test"] boot
    = Done (Suite s) w'
    /\ map fst (tests s) = ["soft_test"]
    /\ NoDup (map fst (tests s)).
Proof.
  intros e.
  destruct (run_test_suite e 40 ["soft_test"; "bogus"; "soft_test"] boot)
    as [[msg|s] w'| |] eqn:Hrun; try (vm_compute in Hrun; discriminate).
  destruct (run_test_suite_outcomes_by_name e 40 _ boot s w' Hrun)
    as (Hnd & _ & _).
  exists s, w'. split; [reflexivity|]. split; [|exact Hnd].
  vm_compute in Hrun. now injection Hrun as <- _.
Defined.

(** X10: over a whole suite that ran, the write attempts are those of the
    requested tests that send a command (the ones of the catalog other than
    the soft test), one each, repeats included; and when every write goes
    through, what was written is exactly their trigger lines, in the order
    requested.  Connecting, waiting for readiness, classifying and
    disconnecting write nothing. *)
Theorem run_test_suite_writes_the_triggers_in_order
        (e : Env) (fuel : nat) (tests_to_run : list string) (w : World)
        (s : SuiteResults) (w' : World) :
  run_test_suite e fuel tests_to_run w = Done (Suite s) w' ->
  writes w' = writes w + List.length (filter sends_command tests_to_run)
  /\ (wired e ->
      sent w'
      = sent w ++ map trigger_line (filter sends_command tests_to_run)).
Proof.
  intros Hrun.
  destruct (run_test_suite_run e fuel tests_to_run w s w' Hrun)
    as (wc & wr & s1 & wl & Hc & Hr & Hloop & _ & Hd).
  destruct (connect_effect e w) as (wc' & Hc' & Hcw & Hcs & _).
  rewrite Hc in Hc'. injection Hc' as _ <-.
  pose proof (wait_for_system_ready_along e (seconds 60) fuel wc) as Ha.
  rewrite Hr in Ha. destruct Ha as ((Hrs & Hrw & _) & _).
  destruct (suite_loop_along e fuel tests_to_run _ _ _ _ _ Hloop)
    as (_ & Hlw & Hls & _).
  pose proof (disconnect_effect e (tick e wl)) as Hd'.
  rewrite Hd in Hd'. destruct Hd' as (_ & Hdw & Hds & _).
  cbn [writes sent tick] in *.
  split; [congruence|].
  intros Hwired. rewrite Hds, (Hls Hwired). congruence.
Qed.

(** X10 on a request of three tests, the soft test among them. *)
Lemma run_test_suite_writes_the_triggers_in_order_witness :
  let e := bench (seconds 2)
                 [Data ("System Monitor - Fully Initialized" ++ nl
                        ++ "Crash handler initialized" ++ nl)%string] in
  exists s w',
    run_test_suite e 40 ["watchdog"; "soft_test"; "null_pointer"] boot
    = Done (Suite s) w'
    /\ sent w' = [("TEST_CRASH_WATCHDOG" ++ nl)%string;
                  ("TEST_CRASH_NULL" ++ nl)%string].
Proof.
  intros e.
  destruct (run_test_suite e 40 ["watchdog"; "soft_test"; "null_pointer"]
                           boot)
    as [[msg|s] w'| |] eqn:Hrun; try (vm_compute in Hrun; discriminate).
  destruct (run_test_suite_writes_the_triggers_in_order e 40 _ boot s w' Hrun)
    as (_ & Hs).
  exists s, w'. split; [reflexivity|].
  rewrite Hs; [reflexivity | intros k; reflexivity].
Defined.

(** ** How long a test takes *)

Lemma wait_for_system_ready_elapsed (e : Env) (fuel : nat) (timeout : Z)
      (w : World) (ready : bool) (w' : World) :
  steady e ->
  wait_for_system_ready e fuel timeout w = Done ready w' ->
  (timeout <= now w' - now w)%Z.
Proof.
  intros Hs. unfold wait_for_system_ready, bind, ret.
  destruct (read_serial_with_timeout e fuel timeout w) as [l v| |] eqn:Hr;
    try discriminate.
  intros [= _ <-]. now apply (read_serial_elapsed e timeout fuel w l v).
Qed.

(** X14: on a clock that is never set back, a test of the catalog that ends
    without an error has lasted at least its observation window: five
    seconds for the soft test, the [timeout] of its catalog entry for the
    others, and thirty seconds more when a reboot was detected, for the
    recovery wait. *)
Theorem run_crash_test_outlasts_its_window
        (e : Env) (fuel : nat) (id : string) (cfg : TestConfig)
        (w : World) (r : Result) (w' : World) :
  steady e ->
  dict_get id crash_tests = Some cfg ->
  run_crash_test e fuel id w = Done r w' ->
  error r = None ->
  (id = "soft_test" -> (seconds 5 <= duration r)%Z)
  /\ (id <> "soft_test" ->
      (timeout cfg <= duration r)%Z
      /\ (reboot_detected r = true ->
          (timeout cfg + seconds 30 <= duration r)%Z)).
Proof.
  intros Hs Hcfg Hrun Herr. pose proof (tick_later e w Hs) as Ht0. split.
  - intros ->.
    destruct (run_crash_test_soft_run e fuel w r w' Hrun)
      as [(lines & w2 & Hread & -> & _)|(msg & w2 & _ & -> & _)];
      [|discriminate Herr].
    pose proof (read_serial_elapsed e _ _ _ _ _ Hs Hread).
    cbn [duration set_duration]. lia.
  - intros Hsoft. apply String.eqb_neq in Hsoft.
    pose proof (run_crash_test_run e fuel id cfg w r w' Hcfg Hsoft Hrun)
      as Hway.
    destruct (send_command_effect e (command cfg) (tick e w))
      as (v1 & Hsend' & _ & _ & _ & _ & Ht1).
    specialize (Ht1 Hs).
    destruct Hway as [w1 Hsend
                     |w1 msg w2 Hsend Hread
                     |w1 lines w2 logs w3 Hsend Hread Hparse Hreboot
                     |w1 lines w2 logs w3 ready w4
                         Hsend Hread Hparse Hreboot Hwait
                     |w1 lines w2 logs w3 msg w4
                         Hsend Hread Hparse Hreboot Hwait];
      try discriminate Herr;
      rewrite Hsend in Hsend'; injection Hsend' as _ <-;
      pose proof (read_serial_elapsed e _ _ _ _ _ Hs Hread) as Hwin;
      pose proof (parse_crash_logs_later e _ _ _ _ Hs Hparse) as Hp.
    + cbn [duration set_duration reboot_detected analysed].
      rewrite Hreboot. split; [lia | discriminate].
    + pose proof (wait_for_system_ready_elapsed e _ _ _ _ _ Hs Hwait) as Hrec.
      unfold seconds in *.
      destruct ready; cbn [duration set_duration]; split; try lia;
        intros _; lia.
Qed.

(** X14 on the soft test at a silent port. *)
Lemma run_crash_test_outlasts_its_window_witness :
  exists r w',
    run_crash_test (bench (seconds 2) []) 40 "soft_test" boot = Done r w'
    /\ (seconds 5 <= duration r)%Z.
Proof.
  assert (Hs : steady (bench (seconds 2) [])) by (intros k; simpl; lia).
  destruct (dict_get "soft_test" crash_tests) as [cfg|] eqn:Hcfg;
    [|vm_compute in Hcfg; discriminate].
  destruct (run_crash_test (bench (seconds 2) []) 40 "soft_test" boot)
    as [r w'| |] eqn:Hrun; try (vm_compute in Hrun; discriminate).
  assert (Herr : error r = None)
    by (vm_compute in Hrun; now injection Hrun as <- _).
  destruct (run_crash_test_outlasts_its_window
              (bench (seconds 2) []) 40 "soft_test" cfg boot r w'
              Hs Hcfg Hrun Herr) as (Hsoft & _).
  exists r, w'. split; [reflexivity | now apply Hsoft].
Defined.

(** ** From the command line to the suite *)

Lemma dict_set_absent {V} (key : string) (value : V) (d : list (string * V)) :
  ~ In key (map fst d) ->
  map fst (dict_set key value d) = map fst d ++ [key].
Proof.
  induction d as [|[k0 v0] d IH]; simpl; intros Hnotin; [reflexivity|].
  destruct (String.eqb_spec k0 key) as [->|Hne]; [tauto|].
  simpl. rewrite IH; [reflexivity | tauto].
Qed.

(** Distinct known names are entered in the order requested. *)
Lemma suite_loop_order (e : Env) (fuel : nat) (tests_to_run : list string) :
  forall names s w s' w',
    for_each names (suite_step e fuel tests_to_run) (s, w) = Done tt (s', w') ->
    NoDup names ->
    (forall id, In id names -> known id = true) ->
    (forall id, In id names -> ~ In id (map fst (tests s))) ->
    map fst (tests s') = map fst (tests s) ++ names.
Proof.
  induction names as [|id names IH]; intros s w s' w'.
  - simpl. unfold ret. intros [= <- <-] _ _ _. now rewrite app_nil_r.
  - cbn [for_each]. unfold bind at 1.
    destruct (suite_step e fuel tests_to_run id (s, w))
      as [[] [s1 w1]| |] eqn:Hstep; try discriminate.
    intros Hrest Hnd Hknown Hfresh.
    inversion Hnd as [|x xs Hnotin Hnd']; subst.
    destruct (suite_step_done e fuel _ _ _ _ _ _ Hstep)
      as [[Hunknown _]|(_ & result & w2 & _ & Htests & _)].
    + rewrite Hknown in Hunknown by now left. discriminate.
    + assert (Hkeys : map fst (tests s1) = map fst (tests s) ++ [id]).
      { rewrite Htests. apply dict_set_absent. apply Hfresh. now left. }
      rewrite (IH _ _ _ _ Hrest Hnd').
      * rewrite Hkeys, <- app_assoc. reflexivity.
      * intros k Hk. apply Hknown. now right.
      * intros k Hk. rewrite Hkeys, in_app_iff. simpl.
        intros [Hin|[->|[]]]; [|contradiction].
        apply (Hfresh k); [now right | exact Hin].
Qed.

(** X15: the list of tests [main] builds from the [--test] argument, when it
    builds one, is either the whole catalog in its order (for ["all"]) or
    the single named test; it is never empty, names no test twice, and
    names only tests of the catalog.  So a suite that ran on it has exactly
    one outcome per requested test, in the order requested, and [total] is
    the length of the list. *)
Theorem select_tests_gives_distinct_known_tests
        (test : string) (tests_to_run : list string) :
  select_tests test = Some tests_to_run ->
  (tests_to_run = (if String.eqb test "all" then map fst crash_tests
                   else [test]))
  /\ tests_to_run <> []
  /\ NoDup tests_to_run
  /\ (forall id, In id tests_to_run -> known id = true)
  /\ (forall e fuel w s w',
         run_test_suite e fuel tests_to_run w = Done (Suite s) w' ->
         map fst (tests s) = tests_to_run
         /\ total (summary s) = List.length tests_to_run).
Proof.
  intros Hsel.
  assert (Hshape : tests_to_run
                   = (if String.eqb test "all" then map fst crash_tests
                      else [test])
                   /\ NoDup tests_to_run
                   /\ (forall id, In id tests_to_run -> known id = true)).
  { unfold select_tests in Hsel.
    destruct (String.eqb test "all").
    - injection Hsel as <-. split; [reflexivity|]. split.
      + simpl. repeat constructor; simpl; intuition discriminate.
      + simpl. intros id Hin.
        repeat (destruct Hin as [<-|Hin]; [reflexivity|]). destruct Hin.
    - destruct (dict_has test crash_tests) eqn:Hk; [|discriminate].
      injection Hsel as <-. split; [reflexivity|]. split.
      + repeat constructor. intros [].
      + intros id [<-|[]]. exact Hk. }
  destruct Hshape as (Hshape & Hnd & Hknown).
  split; [exact Hshape|]. split.
  { rewrite Hshape. destruct (String.eqb test "all"); discriminate. }
  split; [exact Hnd|]. split; [exact Hknown|].
  intros e fuel w s w' Hrun.
  destruct (run_test_suite_run e fuel tests_to_run w s w' Hrun)
    as (wc & wr & s1 & wl & _ & _ & Hloop & -> & _).
  cbn [tests summary set_end_time]. split.
  - rewrite (suite_loop_order e fuel _ _ _ _ _ _ Hloop Hnd Hknown);
      [reflexivity | intros id _ []].
  - destruct (suite_loop e fuel tests_to_run _ _ _ _ _ Hloop) as (Ht & _).
    rewrite Ht. cbn [total summary new_suite]. simpl. f_equal.
    clear - Hknown. induction tests_to_run as [|x xs IH]; [reflexivity|].
    simpl. rewrite Hknown by now left. simpl. f_equal.
    apply IH. intros id Hin. apply Hknown. now right.
Qed.

(** X15 on [--test all]. *)
Lemma select_tests_gives_distinct_known_tests_witness :
  select_tests "all"
  = Some ["soft_test"; "null_pointer"; "stack_overflow"; "heap_corruption";
          "assert_fail"; "watchdog"]
  /\ NoDup ["soft_test"; "null_pointer"; "stack_overflow"; "heap_corruption";
            "assert_fail"; "watchdog"].
Proof.
  split; [reflexivity|].
  exact (proj1 (proj2 (proj2 (select_tests_gives_distinct_known_tests
                                "all" _ eq_refl)))).
Defined.

(** ** The reboot classifier *)

Lemma prefix_spec (needle : string) :
  forall hay,
    String.prefix needle hay = true
    <-> exists post, hay = (needle ++ post)%string.
Proof.
  induction needle as [|a needle IH]; intros hay.
  - destruct hay; simpl; split; eauto.
  - destruct hay as [|b hay]; simpl.
    + split; [discriminate | intros (post & H); discriminate H].
    + destruct (ascii_dec a b) as [<-|Hne].
      * rewrite IH. split; intros (post & H).
        -- exists post. now rewrite H.
        -- exists post. now injection H.
      * split; [discriminate|]. intros (post & H). injection H as H _.
        now destruct Hne.
Qed.

(** [needle in hay] holds exactly when [hay] is some text, the needle, and
    some text. *)
Lemma contains_spec (needle : string) :
  forall hay,
    Text.contains needle hay = true
    <-> exists pre post, hay = (pre ++ needle ++ post)%string.
Proof.
  induction hay as [|c hay IH]; cbn [Text.contains].
  - rewrite orb_false_r, prefix_spec. split.
    + intros (post & H). exists EmptyString, post. exact H.
    + intros ([|x pre] & post & H); [eauto | discriminate H].
  - rewrite orb_true_iff, IH, prefix_spec. split.
    + intros [(post & H)|(pre & post & H)].
      * exists EmptyString, post. exact H.
      * exists (String c pre), post. simpl. now rewrite H.
    + intros ([|x pre] & post & H).
      * left. exists post. exact H.
      * right. injection H as _ H. eauto.
Qed.

(** X11: [detect_reboot] answers true exactly when some line holds one of
    the four boot banners as a substring, with the case of the letters as
    in the table and anywhere in the line; an empty batch gives false, and
    the answer for two batches put together is the disjunction of their
    answers, so neither the order of the lines nor unrelated lines
    matter. *)
Theorem detect_reboot_finds_a_banner (lines : list string) :
  (detect_reboot lines = true
   <-> exists line banner pre post,
        In line lines /\ In banner reboot_indicators
        /\ line = (pre ++ banner ++ post)%string)
  /\ detect_reboot [] = false
  /\ (forall more,
         detect_reboot (lines ++ more)
         = detect_reboot lines || detect_reboot more)
  /\ (forall more,
         detect_reboot (more ++ lines) = detect_reboot (lines ++ more)).
Proof.
  unfold detect_reboot, any_indicator.
  split; [|split; [reflexivity|split]].
  - rewrite existsb_exists. split.
    + intros (line & Hin & Hex). apply existsb_exists in Hex.
      destruct Hex as (banner & Hb & Hc). apply contains_spec in Hc.
      destruct Hc as (pre & post & Hc). exists line, banner, pre, post. auto.
    + intros (line & banner & pre & post & Hin & Hb & Hc).
      exists line. split; [exact Hin|]. apply existsb_exists.
      exists banner. split; [exact Hb|]. apply contains_spec. eauto.
  - intros more. apply existsb_app.
  - intros more. rewrite !existsb_app. apply orb_comm.
Qed.

(** ** The lines the reader returns *)

Lemma cut_segments_no_newline (s : string) :
  forall segment,
    In segment (fst (cut s)) -> occurs Text.newline segment = false.
Proof.
  induction s as [|c s IH]; simpl; [intros ? []|].
  destruct (cut s) as [segments tail]; simpl in IH.
  destruct (Ascii.eqb c Text.newline) eqn:Hc; simpl.
  - intros segment [<-|Hin]; [reflexivity | now apply IH].
  - destruct segments as [|first others]; simpl; [intros ? []|].
    intros segment [<-|Hin].
    + simpl. rewrite Hc. simpl. apply IH. now left.
    + apply IH. now right.
Qed.

Lemma occurs_lstrip (c : ascii) (s : string) :
  occurs c s = false -> occurs c (Text.lstrip s) = false.
Proof.
  induction s as [|x s IH]; simpl; [auto|].
  destruct (Text.is_space x); simpl; [|auto].
  intros H. apply orb_false_iff in H. now apply IH.
Qed.

Lemma occurs_rstrip (c : ascii) (s : string) :
  occurs c s = false -> occurs c (Text.rstrip s) = false.
Proof.
  induction s as [|x s IH]; simpl; [auto|].
  intros H. apply orb_false_iff in H. destruct H as [Hx Hs].
  specialize (IH Hs).
  destruct (Text.rstrip s) as [|y kept].
  - destruct (Text.is_space x); simpl; [reflexivity | now rewrite Hx].
  - simpl in *. now rewrite Hx.
Qed.

Lemma rstrip_idempotent (s : string) :
  Text.rstrip (Text.rstrip s) = Text.rstrip s.
Proof.
  induction s as [|x s IH]; simpl; [reflexivity|].
  destruct (Text.rstrip s) as [|y kept] eqn:Hk.
  - destruct (Text.is_space x) eqn:Hx; simpl; [reflexivity | now rewrite Hx].
  - change (Text.rstrip (String x (String y kept))
            = String x (String y kept)).
    cbn [Text.rstrip]. cbn [Text.rstrip] in IH. now rewrite IH.
Qed.

Lemma lstrip_head (s : string) :
  Text.lstrip s = EmptyString
  \/ exists c rest, Text.lstrip s = String c rest /\ Text.is_space c = false.
Proof.
  induction s as [|x s IH]; simpl; [now left|].
  destruct (Text.is_space x) eqn:Hx; [exact IH|]. right. eauto.
Qed.

(** Stripping a stripped text changes nothing. *)
Lemma strip_idempotent (s : string) :
  Text.strip (Text.strip s) = Text.strip s.
Proof.
  unfold Text.strip.
  destruct (lstrip_head s) as [->|(c & rest & -> & Hc)]; [reflexivity|].
  assert (Hhead : exists kept,
             Text.rstrip (String c rest) = String c kept).
  { cbn [Text.rstrip]. destruct (Text.rstrip rest);
      [rewrite Hc|]; eauto. }
  destruct Hhead as (kept & Hk).
  assert (Hl : Text.lstrip (Text.rstrip (String c rest))
               = Text.rstrip (String c rest)).
  { rewrite Hk. cbn [Text.lstrip]. now rewrite Hc. }
  rewrite Hl. apply rstrip_idempotent.
Qed.

(** X13: every line [read_serial_with_timeout] returns is not empty, holds
    no newline, and has no white space at either end (stripping it again
    changes nothing). *)
Theorem read_serial_with_timeout_lines_are_clean
        (e : Env) (fuel : nat) (timeout : Z) (w : World)
        (lines : list string) (w' : World) :
  read_serial_with_timeout e fuel timeout w = Done lines w' ->
  Forall (fun line =>
            line <> EmptyString
            /\ occurs Text.newline line = false
            /\ Text.strip line = line)
         lines.
Proof.
  intros Hrun. destruct (read_serial_lines e _ _ _ _ _ Hrun) as [_ ->].
  eapply Forall_impl; [|apply complete_lines_truthy].
  intros line (Ht & segment & Hin & ->). repeat split.
  - intros Hempty. rewrite Hempty in Ht. discriminate Ht.
  - unfold Text.strip. apply occurs_rstrip, occurs_lstrip.
    now apply (cut_segments_no_newline _ _ Hin).
  - apply strip_idempotent.
Qed.

(** X13 at a port that delivers padded lines, an empty line and a partial
    one. *)
Lemma read_serial_with_timeout_lines_are_clean_witness :
  let e := bench (seconds 2)
                 [Data ("  boot ok  " ++ nl ++ "   " ++ nl
                        ++ "rst:0x1" ++ nl ++ "tail")%string] in
  exists w',
    read_serial_with_timeout e 9 (seconds 5) boot
    = Done ["boot ok"; "rst:0x1"] w'
    /\ Forall (fun line => Text.strip line = line) ["boot ok"; "rst:0x1"].
Proof.
  intros e.
  destruct (read_serial_with_timeout e 9 (seconds 5) boot)
    as [lines w'| |] eqn:Hrun; try (vm_compute in Hrun; discriminate).
  pose proof (read_serial_with_timeout_lines_are_clean
                e 9 (seconds 5) boot lines w' Hrun) as Hclean.
  assert (Hl : lines = ["boot ok"; "rst:0x1"])
    by (vm_compute in Hrun; now injection Hrun as <- _).
  subst lines. exists w'. split; [reflexivity|].
  eapply Forall_impl; [|exact Hclean]. intros line (_ & _ & H). exact H.
Defined.

(** ** What the crash-log entries carry *)

Lemma append_length (a b : string) :
  String.length (a ++ b) = String.length a + String.length b.
Proof. induction a as [|x a IH]; simpl; [reflexivity | now rewrite IH]. Qed.

Lemma take_consumed (pre rest : string) :
  Text.take (String.length (pre ++ rest) - String.length rest) (pre ++ rest)
  = pre.
Proof.
  rewrite append_length.
  replace (String.length pre + String.length rest - String.length rest)
    with (String.length pre) by lia.
  induction pre as [|x pre IH]; simpl; [now destruct rest | now rewrite IH].
Qed.

Lemma many_consumes (cl : Re.cclass) (k : Re.cont) :
  forall s caps groups,
    Re.many cl s caps k = Some groups ->
    exists pre rest,
      s = (pre ++ rest)%string /\ all_in cl pre = true
      /\ k rest caps = Some groups.
Proof.
  induction s as [|c s IH]; intros caps groups; simpl.
  - intros H. exists EmptyString, EmptyString. auto.
  - destruct (Re.in_class cl c) eqn:Hc.
    + destruct (Re.many cl s caps k) as [g|] eqn:Hm.
      * intros [= <-]. destruct (IH _ _ Hm) as (pre & rest & -> & Hall & Hk).
        exists (String c pre), rest. simpl. rewrite Hc. auto.
      * intros H. exists EmptyString, (String c s). auto.
    + intros H. exists EmptyString, (String c s). auto.
Qed.

(** A group around [cl+] captures the characters the repetition consumed:
    at least one, all of the class. *)
Lemma group_many1 (cl : Re.cclass) (k : Re.cont) (s : string)
      (caps groups : list string) :
  Re.matches (Re.Group (Re.Many1 cl)) s caps k = Some groups ->
  exists pre rest,
    s = (pre ++ rest)%string /\ pre <> EmptyString /\ all_in cl pre = true
    /\ k rest (caps ++ [pre]) = Some groups.
Proof.
  cbn [Re.matches]. destruct s as [|c s]; [discriminate|].
  destruct (Re.in_class cl c) eqn:Hc; [|discriminate].
  intros Hm. apply many_consumes in Hm.
  destruct Hm as (pre & rest & -> & Hall & Hk).
  exists (String c pre), rest. simpl. rewrite Hc.
  repeat split; auto; [discriminate|].
  change (String c (pre ++ rest)) with (String c pre ++ rest)%string in Hk.
  now rewrite take_consumed in Hk.
Qed.

Lemma lit_group_free (s : string) : group_free (Re.lit s) = true.
Proof. induction s; simpl; auto. Qed.

Lemma search_start (r : Re.regex) :
  forall s groups,
    Re.search r s = Some groups ->
    exists start,
      Re.matches r start [] (fun _ caps => Some caps) = Some groups.
Proof.
  induction s as [|c s IH]; intros groups; simpl.
  - destruct (Re.matches r EmptyString [] (fun _ caps => Some caps)) eqn:Hm;
      [|discriminate].
    intros [= <-]. eauto.
  - destruct (Re.matches r (String c s) [] (fun _ caps => Some caps)) eqn:Hm.
    + intros [= <-]. eauto.
    + apply IH.
Qed.

(** A pattern made of literal text, a group around [cl+] and a rest
    without groups captures one group. *)
Lemma search_one_group (before : string) (cl : Re.cclass) (rest : Re.regex)
      (s : string) (groups : list string) :
  group_free rest = true ->
  Re.search (Re.Seq (Re.lit before) (Re.Seq (Re.Group (Re.Many1 cl)) rest)) s
  = Some groups ->
  exists g, groups = [g] /\ g <> EmptyString /\ all_in cl g = true.
Proof.
  intros Hfree Hs. apply search_start in Hs. destruct Hs as (start & Hm).
  cbn [Re.matches] in Hm.
  apply (matches_group_free _ (lit_group_free before)) in Hm.
  destruct Hm as (s1 & Hm).
  change (Re.matches (Re.Group (Re.Many1 cl)) s1 []
            (fun s' caps' =>
               Re.matches rest s' caps' (fun _ caps => Some caps))
          = Some groups) in Hm.
  apply group_many1 in Hm.
  destruct Hm as (pre & s2 & _ & Hne & Hall & Hm).
  apply (matches_group_free _ Hfree) in Hm. destruct Hm as (s3 & [= <-]).
  exists pre. auto.
Qed.

Lemma search_seq_eps (a g : Re.regex) (s : string) :
  Re.search (Re.Seq a (Re.Seq g Re.Eps)) s = Re.search (Re.Seq a g) s.
Proof.
  induction s as [|c s IH]; cbn [Re.search];
    [reflexivity | rewrite IH; reflexivity].
Qed.

Lemma all_in_dot (s : string) :
  all_in Re.Dot s = true -> occurs Text.newline s = false.
Proof.
  induction s as [|c s IH]; simpl; [reflexivity|].
  intros H. apply andb_prop in H. destruct H as [Hc Hs].
  rewrite (IH Hs), orb_false_r. now apply negb_true_iff in Hc.
Qed.

(** Where an entry of the crash log comes from. *)
Lemma crash_log_origin (e : Env) (lines : list string) (w : World)
      (logs : list CrashLog) (w' : World) (log : CrashLog) :
  parse_crash_logs e lines w = Done logs w' ->
  In log logs ->
  exists entry groups,
    In entry patterns /\ In (line log) lines
    /\ Re.search (snd entry) (line log) = Some groups
    /\ type log = fst entry
    /\ data log = groups_or_none groups.
Proof.
  intros Hrun Hin.
  destruct (parse_crash_logs_hits e lines w) as (lg & v & Hrun' & Hlogs & _).
  rewrite Hrun in Hrun'. injection Hrun' as <- <-.
  apply (in_map untimed) in Hin. rewrite Hlogs in Hin.
  apply in_flat_map in Hin. destruct Hin as (l & Hl & Hin).
  unfold hits, hits_in in Hin. apply in_flat_map in Hin.
  destruct Hin as (entry & Hentry & Hin).
  destruct (Re.search (snd entry) l) as [groups|] eqn:Hs; [|contradiction].
  destruct Hin as [Heq|[]]. unfold untimed in Heq.
  injection Heq as Hname Hline Hdata. subst l.
  exists entry, groups. auto.
Qed.

(** X12: an entry of type [init] always carries exactly one group, a
    non-empty run of decimal digits; an entry of type [test_logged] or
    [recovery] always carries exactly one group, a non-empty text without a
    newline. *)
Theorem crash_log_entries_carry_one_group
        (e : Env) (lines : list string) (w : World)
        (logs : list CrashLog) (w' : World) (log : CrashLog) :
  parse_crash_logs e lines w = Done logs w' ->
  In log logs ->
  (type log = "init" ->
   exists g,
     data log = Some [g] /\ g <> EmptyString /\ all_in Re.Digit g = true)
  /\ (type log = "test_logged" \/ type log = "recovery" ->
      exists g,
        data log = Some [g] /\ g <> EmptyString
        /\ occurs Text.newline g = false).
Proof.
  intros Hrun Hin.
  destruct (crash_log_origin e lines w logs w' log Hrun Hin)
    as (entry & groups & Hentry & _ & Hs & Htype & Hdata).
  rewrite Htype, Hdata.
  unfold patterns in Hentry. cbn [In] in Hentry.
  destruct Hentry as [<-|[<-|[<-|[<-|[]]]]]; cbn [fst snd] in *;
    (split; [intros Hname | intros [Hname|Hname]]);
    try discriminate Hname.
  - apply search_one_group in Hs; [|apply lit_group_free].
    destruct Hs as (g & -> & Hne & Hall). exists g. auto.
  - rewrite <- search_seq_eps in Hs.
    apply search_one_group in Hs; [|reflexivity].
    destruct Hs as (g & -> & Hne & Hall). exists g.
    repeat split; auto. now apply all_in_dot.
  - rewrite <- search_seq_eps in Hs.
    apply search_one_group in Hs; [|reflexivity].
    destruct Hs as (g & -> & Hne & Hall). exists g.
    repeat split; auto. now apply all_in_dot.
Qed.

(** X12 on the line of the stored-logs count. *)
Lemma crash_log_entries_carry_one_group_witness :
  exists logs w' log g,
    parse_crash_logs (bench (seconds 2) [])
                     ["Crash log manager initialized - 3 logs stored"] boot
    = Done logs w'
    /\ In log logs
    /\ type log = "init"
    /\ data log = Some [g]
    /\ all_in Re.Digit g = true.
Proof.
  destruct (parse_crash_logs (bench (seconds 2) [])
              ["Crash log manager initialized - 3 logs stored"] boot)
    as [logs w'| |] eqn:Hrun; try (vm_compute in Hrun; discriminate).
  pose proof Hrun as Hval. vm_compute in Hval. injection Hval as Hlogs _.
  set (first :=
         {| type := "init";
            line := "Crash log manager initialized - 3 logs stored";
            data := Some ["3"]; timestamp := 0%Z |}).
  assert (Hin : In first logs) by (rewrite <- Hlogs; now left).
  destruct (crash_log_entries_carry_one_group
              _ _ _ _ _ first Hrun Hin) as (Hinit & _).
  destruct (Hinit eq_refl) as (g & Hdata & _ & Hdigits).
  exists logs, w', first, g. repeat split; assumption.
Defined.

(** X16: classifying crash logs never touches the port: nothing is written,
    no write is attempted, nothing is polled, and the port stays open or
    closed as it was.  Every entry comes from one of the lines given, under
    the name of one of the four patterns, and that pattern matches the
    line; so an empty batch gives no entry. *)
Theorem parse_crash_logs_only_reads_its_lines
        (e : Env) (lines : list string) (w : World)
        (logs : list CrashLog) (w' : World) :
  parse_crash_logs e lines w = Done logs w' ->
  sent w' = sent w
  /\ writes w' = writes w
  /\ polls w' = polls w
  /\ is_open w' = is_open w
  /\ (forall log,
         In log logs ->
         In (line log) lines
         /\ exists pattern,
             In (type log, pattern) patterns
             /\ matched pattern (line log) = true)
  /\ (lines = [] -> logs = []).
Proof.
  intros Hrun.
  destruct (parse_crash_logs_hits e lines w)
    as (lg & v & Hrun' & Hlogs & (Hs & Hw & Ho) & Hp).
  rewrite Hrun in Hrun'. injection Hrun' as <- <-.
  repeat split; auto.
  - destruct (crash_log_origin e lines w logs w' log Hrun H)
      as (entry & groups & _ & Hline & _). exact Hline.
  - destruct (crash_log_origin e lines w logs w' log Hrun H)
      as ([name pattern] & groups & Hentry & _ & Hsearch & Htype & _).
    cbn [fst snd] in *. exists pattern. rewrite Htype.
    split; [exact Hentry|]. unfold matched. now rewrite Hsearch.
  - intros ->. simpl in Hlogs. now destruct logs.
Qed.

(** X16 on a batch of one matching line and one that matches nothing. *)
Lemma parse_crash_logs_only_reads_its_lines_witness :
  exists logs w',
    parse_crash_logs (bench (seconds 2) [])
                     ["Storing crash log"; "heap free: 123456"] boot
    = Done logs w'
    /\ map line logs = ["Storing crash log"]
    /\ polls w' = 0
    /\ sent w' = [].
Proof.
  destruct (parse_crash_logs (bench (seconds 2) [])
              ["Storing crash log"; "heap free: 123456"] boot)
    as [logs w'| |] eqn:Hrun; try (vm_compute in Hrun; discriminate).
  destruct (parse_crash_logs_only_reads_its_lines _ _ _ _ _ Hrun)
    as (Hs & _ & Hp & _).
  exists logs, w'. split; [reflexivity|]. split; [|split; assumption].
  vm_compute in Hrun. now injection Hrun as <- _.
Defined.

(** ** Readiness on small batches *)

(** X17: on an empty batch [wait_for_system_ready] answers false; on a
    batch of a single line it answers true exactly when two different
    indicators occur in that line, since an indicator counts once per line
    however often the line repeats it; and no batch counts more than three
    hits per line. *)
Theorem wait_for_system_ready_on_small_batches
        (e : Env) (fuel : nat) (timeout : Z) (w w' : World)
        (lines : list string) :
  read_serial_with_timeout e fuel timeout w = Done lines w' ->
  (lines = [] -> wait_for_system_ready e fuel timeout w = Done false w')
  /\ (forall line,
         lines = [line] ->
         wait_for_system_ready e fuel timeout w
         = Done (2 <=? List.length (distinct_found [line]))%nat w')
  /\ List.length (found_indicators lines) <= 3 * List.length lines.
Proof.
  intros Hrun. unfold wait_for_system_ready, bind, ret. rewrite Hrun.
  split; [intros ->; reflexivity|]. split.
  - intros line ->. do 2 f_equal.
    unfold found_indicators, distinct_found. cbn [flat_map existsb].
    rewrite app_nil_r. f_equal. apply filter_ext. intros ind.
    now rewrite orb_false_r.
  - unfold found_indicators. clear.
    induction lines as [|l lines IH]; cbn [flat_map List.length]; [lia|].
    rewrite length_app.
    pose proof (filter_length_le
                  (fun indicator => Text.contains indicator l)
                  ready_indicators) as Hle.
    change (List.length ready_indicators) with 3 in Hle. lia.
Qed.

(** X17 on a batch of one line that repeats one indicator. *)
Lemma wait_for_system_ready_on_small_batches_witness :
  let e := bench (seconds 2)
                 [Data ("Crash handler initialized; Crash handler initialized"
                        ++ nl)%string] in
  exists w',
    read_serial_with_timeout e 40 (seconds 60) boot
    = Done ["Crash handler initialized; Crash handler initialized"] w'
    /\ wait_for_system_ready e 40 (seconds 60) boot = Done false w'.
Proof.
  intros e.
  destruct (read_serial_with_timeout e 40 (seconds 60) boot)
    as [lines w'| |] eqn:Hrun; try (vm_compute in Hrun; discriminate).
  destruct (wait_for_system_ready_on_small_batches
              e 40 (seconds 60) boot w' lines Hrun) as (_ & Hone & _).
  assert (Hl : lines
               = ["Crash handler initialized; Crash handler initialized"])
    by (vm_compute in Hrun; now injection Hrun as <- _).
  exists w'. rewrite <- Hl. split; [reflexivity|].
  rewrite (Hone _ Hl). reflexivity.
Defined.

(** ** One round of the suite *)

Lemma dict_get_set_same {V} (key : string) (value : V)
      (d : list (string * V)) :
  dict_get key (dict_set key value d) = Some value.
Proof.
  induction d as [|[k0 v0] d IH]; simpl.
  - now rewrite String.eqb_refl.
  - destruct (String.eqb k0 key) eqn:Hk; simpl; rewrite Hk; auto.
Qed.

Lemma dict_get_set_other {V} (key other : string) (value : V)
      (d : list (string * V)) :
  other <> key ->
  dict_get other (dict_set key value d) = dict_get other d.
Proof.
  intros Hne. induction d as [|[k0 v0] d IH]; simpl.
  - destruct (String.eqb_spec key other) as [->|_]; [now destruct Hne|].
    reflexivity.
  - destruct (String.eqb_spec k0 key) as [->|Hk]; simpl.
    + destruct (String.eqb_spec key other) as [->|_]; [now destruct Hne|].
      reflexivity.
    + now rewrite IH.
Qed.

(** X18: after a round of the suite on a test of the catalog, the outcome
    stored under its name is the one that run just produced, replacing an
    earlier outcome of the same name if there was one, and the outcomes
    stored under all other names are as before. *)
Theorem suite_step_stores_the_latest_outcome
        (e : Env) (fuel : nat) (tests_to_run : list string) (id : string)
        (s : SuiteResults) (w : World) (s' : SuiteResults) (w' : World) :
  known id = true ->
  suite_step e fuel tests_to_run id (s, w) = Done tt (s', w') ->
  exists result w1,
    run_crash_test e fuel id w = Done result w1
    /\ dict_get id (tests s') = Some result
    /\ (forall other,
           other <> id ->
           dict_get other (tests s') = dict_get other (tests s)).
Proof.
  intros Hknown Hstep.
  destruct (suite_step_done e fuel _ _ _ _ _ _ Hstep)
    as [[Hunknown _]|(_ & result & w1 & Hrun & Htests & _)];
    [congruence|].
  exists result, w1. rewrite Htests.
  split; [exact Hrun|]. split; [apply dict_get_set_same|].
  intros other Hne. now apply dict_get_set_other.
Qed.

(** X18 on a second run of the soft test, over a stored outcome of a first
    run. *)
Lemma suite_step_stores_the_latest_outcome_witness :
  let e := bench (seconds 2)
                 [Data ("Test crash logged: manual" ++ nl)%string] in
  let earlier :=
    set_tests [("soft_test", new_result "soft_test");
               ("watchdog", new_result "watchdog")] (new_suite 0) in
  exists s' w' result,
    suite_step e 40 ["soft_test"] "soft_test" (earlier, boot)
    = Done tt (s', w')
    /\ dict_get "soft_test" (tests s') = Some result
    /\ success result = true
    /\ dict_get "watchdog" (tests s') = Some (new_result "watchdog").
Proof.
  intros e earlier.
  destruct (suite_step e 40 ["soft_test"] "soft_test" (earlier, boot))
    as [[] [s' w']| |] eqn:Hstep; try (vm_compute in Hstep; discriminate).
  destruct (suite_step_stores_the_latest_outcome
              e 40 _ "soft_test" earlier boot s' w' eq_refl Hstep)
    as (result & w1 & Hrun & Hget & Hother).
  exists s', w', result. split; [reflexivity|]. split; [exact Hget|].
  split.
  - vm_compute in Hrun. now injection Hrun as <- _.
  - rewrite Hother by discriminate. reflexivity.
Defined.

(** X19: the pause between tests is decided by the name of the test, not by
    its place in the request: after a test of the catalog the suite sleeps
    five seconds when its name differs from the last requested name, and
    does not sleep when the name equals it, wherever the test stands in the
    request. *)
Theorem suite_step_rests_by_name
        (e : Env) (fuel : nat) (tests_to_run : list string) (id : string)
        (s : SuiteResults) (w : World) (s' : SuiteResults) (w' : World) :
  known id = true ->
  suite_step e fuel tests_to_run id (s, w) = Done tt (s', w') ->
  exists result w1,
    run_crash_test e fuel id w = Done result w1
    /\ (id = last tests_to_run EmptyString -> w' = w1)
    /\ (id <> last tests_to_run EmptyString ->
        same_link w1 w' /\ polls w' = polls w1
        /\ (steady e -> (now w1 + seconds 5 <= now w')%Z)).
Proof.
  intros Hknown Hstep.
  destruct (suite_step_full e fuel _ _ _ _ _ _ Hstep)
    as [(Hunknown & _)|(_ & result & w1 & Hrun & _ & Hw)];
    [congruence|].
  exists result, w1. split; [exact Hrun|].
  destruct (String.eqb_spec id (last tests_to_run EmptyString)) as [Heq|Hne].
  - split; [auto | intros H; now destruct H].
  - split; [intros H; now destruct Hne|]. intros _.
    now apply sleep_along.
Qed.

(** X19 on the request [soft_test, null_pointer, soft_test]: no pause after
    the first run of the soft test. *)
Lemma suite_step_rests_by_name_witness :
  let e := bench (seconds 2) [] in
  let request := ["soft_test"; "null_pointer"; "soft_test"] in
  exists s' w' result,
    suite_step e 40 request "soft_test" (new_suite 0, boot) = Done tt (s', w')
    /\ run_crash_test e 40 "soft_test" boot = Done result w'.
Proof.
  intros e request.
  destruct (suite_step e 40 request "soft_test" (new_suite 0, boot))
    as [[] [s' w']| |] eqn:Hstep; try (vm_compute in Hstep; discriminate).
  destruct (suite_step_rests_by_name
              e 40 request "soft_test" _ boot s' w' eq_refl Hstep)
    as (result & w1 & Hrun & Hsame & _).
  exists s', w', result. split; [reflexivity|].
  rewrite (Hsame eq_refl). exact Hrun.
Defined.
